(** * prepare_dataset.py: the fetch / download / convert pipeline

    A shallow embedding of [src/prepare_dataset.py] and of the constants of
    [src/const.py] it uses.  Python values are modelled as follows.

    - [int] is [Z] (unbounded).
    - [str] is a list of Unicode code points ([pystr]); a character is its
      code point.  [str.isalnum] is a Unicode table of the interpreter and is
      taken as a parameter [isalnum].
    - A [pathlib.Path] is the list of its components ([Path]).
    - The file system is a finite map from paths to nodes; a file holds the
      sequence of units written to it: CSV records appended by [csv.writer]
      and opaque blobs written by the external tools.
    - The outside world (Spotify search, YouTube search and streams, the
      ffmpeg process) is an environment [Env] of oracles that may depend on
      everything that happened so far; every interaction is appended to the
      trace of the [World].
    - An exception is a value of [Exc]; code that may raise returns a
      [result].  All exceptions modelled are subclasses of [Exception].
    - Two failures of the platform that depend on the data alone are part of
      the model: writing text that UTF-8 cannot encode (a lone surrogate) to
      the manifest raises [UnicodeEncodeError], and [stat] on a path with a
      component of more than 255 bytes raises [OSError] (ENAMETOOLONG), which
      [Path.exists] lets through.  Statements that promise success are made
      for file names the file system takes ([name_accepted]).
    - Standard output takes every line: [print] records it and returns.
      Permissions, quotas and the like are not modelled. *)

From Stdlib Require Import ZArith String Ascii List Lia.
From stdpp Require Import gmap list.
Import ListNotations.

Local Open Scope Z_scope.

(** ** Python strings and paths *)

Abbreviation char := N (only parsing).
Abbreviation pystr := (list N) (only parsing).
Abbreviation Path := (list (list N)) (only parsing).

(** A literal of the source, as code points. *)
Fixpoint py (s : string) : pystr :=
  match s with
  | EmptyString => []
  | String a s' => N_of_ascii a :: py s'
  end.

(** [c in s] for a one-character [c]. *)
Definition char_in (c : char) (s : pystr) : bool :=
  existsb (N.eqb c) s.

(** ["sep".join(parts)] *)
Fixpoint join (sep : pystr) (parts : list pystr) : pystr :=
  match parts with
  | [] => []
  | [p] => p
  | p :: rest => p ++ sep ++ join sep rest
  end.

(** [str(path)] for a relative path. *)
Definition path_str (p : Path) : pystr :=
  match p with
  | [] => py "."
  | _ => join (py "/") p
  end.

(** [path / name] where [name] is a single component: not empty, not ".",
    without "/" (see [plain_component]). *)
Definition path_div (p : Path) (name : pystr) : Path := p ++ [name].

(** [name] is one path component for [pathlib] and the file system: not
    empty, not "." nor "..", without "/" and without the NUL character. *)
Definition plain_component (name : pystr) : bool :=
  match name with
  | [] => false
  | _ =>
      negb (forallb (N.eqb 46) name && (length name <=? 2)%nat)
      && forallb (fun c => negb (N.eqb c 47) && negb (N.eqb c 0)) name
  end.

(** [path.parent] *)
Definition parent (p : Path) : Path := removelast p.

(** ** const.py *)

Definition GENRES : list pystr :=
  [ py "country"; py "electronic"; py "funk"; py "hip hop"; py "jazz";
    py "latin"; py "metal"; py "polka"; py "pop"; py "punk"; py "reggae";
    py "rock"; py "soul" ].

Definition TOP_GENRES_PATH : Path := [py "dataset"; py "top_genres"].
Definition SUB_GENRES_PATH : Path := [py "dataset"; py "sub_genres"].

(** ** sanitize_filename *)

Section Sanitize.

(** [str.isalnum] on one character. *)
Variable isalnum : char -> bool.

(** The generator's element:
    [c if c.isalnum() or c in " -_" else "_"]. *)
Definition sanitize_char (c : char) : pystr :=
  if isalnum c || char_in c (py " -_") then [c] else py "_".

(** ["".join(... for c in filename)] *)
Definition sanitize_filename (filename : pystr) : pystr :=
  join [] (map sanitize_char filename).

End Sanitize.

(** ASCII letters and digits: the restriction of [str.isalnum] to ASCII,
    false elsewhere.  Used to run the model on concrete inputs. *)
Definition ascii_isalnum (c : char) : bool :=
  ((48 <=? c) && (c <=? 57) || (65 <=? c) && (c <=? 90)
   || (97 <=? c) && (c <=? 122))%N.

(** ** Exceptions *)

(** The exceptions the modelled code can meet; all are subclasses of
    [Exception], so every [except Exception] clause catches them. *)
Inductive Exc :=
| KeyError (key : pystr)
| IndexError
| AttributeError
| FileNotFoundError (p : Path)
| IsADirectoryError (p : Path)
| NotADirectoryError (p : Path)
| FileExistsError (p : Path)
| CalledProcessError (returncode : Z)
| UnicodeEncodeError (text : pystr)
| OSError_ENAMETOOLONG (p : Path)
| ExternalError (msg : pystr).

Inductive result (A : Type) :=
| Ok (a : A)
| Raise (e : Exc).
Arguments Ok {A} a.
Arguments Raise {A} e.

(** What a Python function hands back to its caller, for the functions whose
    return value a claim speaks about. *)
Inductive PyVal :=
| PyNone
| PyBool (b : bool)
| PyInt (z : Z)
| PyStr (s : pystr).

(** ** Data exchanged with the outside world *)

(** The catalog's JSON; a missing key is [None]. *)
Record Artist := { a_name : option pystr }.

Record Track := {
  duration_ms : option Z;
  artists : option (list Artist);
  t_name : option pystr
}.

Record Paging := { items : option (list Track) }.

Record Response := { tracks : option Paging }.

(** An element of the list returned by [get_songs_by_genre]. *)
Record Song := { artist_name : pystr; song_name : pystr }.

(** What [stream.download(output_path, filename)] does: it writes the file, or
    raises, possibly leaving a partial file behind. *)
Inductive DownloadOutcome :=
| Downloaded (data : pystr)
| DownloadFailed (e : Exc) (partial : option pystr).

Record Stream := { download : DownloadOutcome }.

(** [yt.streams.get_audio_only()]: raises, or returns a stream or [None]. *)
Record Video := { get_audio_only : result (option Stream) }.

(** What running an external process does: the binary is missing, or it runs,
    may write its output file, and exits with a return code. *)
Inductive ProcOutcome :=
| Exited (returncode : Z) (output : option pystr)
| BinaryMissing.

(** ** Files *)

Inductive Chunk :=
| Rec (row : list pystr)
| Blob (data : pystr).

Inductive Node :=
| Dir
| File (content : list Chunk).

(** ** Log lines, events and the world *)

(** One constructor per [print] of the source, with the interpolated values. *)
Inductive Msg :=
| MsgNoTracks (genre : pystr) (offset : Z)
| MsgFetched (n : Z) (genre : pystr) (offset : Z)
| MsgApiError (retries max_calls : Z) (e : Exc)
| MsgMaxRetries (genre : pystr) (offset : Z)
| MsgFetching (genre : pystr)
| MsgNoMore (genre : pystr)
| MsgTotal (genre : pystr) (total songs_per_genre : Z)
| MsgFinished (genre : pystr) (total : Z)
| MsgExists (wav_file_path : Path)
| MsgSearching (song_name artist_name : pystr)
| MsgNoResults (song_name artist_name : pystr)
| MsgDownloading (song_name artist_name : pystr)
| MsgConverting (wav_file_path : Path)
| MsgSaved (wav_file_path : Path)
| MsgProcessingError (song_name artist_name : pystr) (e : Exc)
| MsgConvertError (input_path : Path) (e : Exc).

Inductive Event :=
| EvSearch (q type_ : pystr) (limit offset : Z) (r : result Response)
| EvSleep (secs : Z)
| EvPrint (m : Msg)
| EvYtSearch (query : pystr) (r : result (list Video))
| EvDownload (output_path : Path) (filename : pystr)
| EvRun (args : list pystr).

Record World := {
  fs : gmap Path Node;
  trace : list Event
}.

(** The external capabilities.  Each may answer differently at every call:
    it sees the whole world, trace included. *)
Record Env := {
  sp_search : World -> pystr -> pystr -> Z -> Z -> result Response;
  yt_search : World -> pystr -> result (list Video);
  subprocess_run : World -> list pystr -> ProcOutcome
}.

Definition log (ev : Event) (w : World) : World :=
  {| fs := fs w; trace := trace w ++ [ev] |}.

Definition print (m : Msg) (w : World) : World := log (EvPrint m) w.

Definition set_fs (f : gmap Path Node) (w : World) : World :=
  {| fs := f; trace := trace w |}.

(** [len(l)] *)
Definition len {A} (l : list A) : Z := Z.of_nat (length l).

(** ** File-system operations *)

(** The node at a path; the empty path is the working directory. *)
Definition node_at (p : Path) (f : gmap Path Node) : option Node :=
  match p with
  | [] => Some Dir
  | _ => f !! p
  end.

(** [path.exists()] *)
Definition path_exists (p : Path) (f : gmap Path Node) : bool :=
  match node_at p f with
  | Some _ => true
  | None => false
  end.

Definition is_dir (p : Path) (f : gmap Path Node) : bool :=
  match node_at p f with
  | Some Dir => true
  | _ => false
  end.

(** [path.mkdir(parents=True, exist_ok=True)]: walks down from the working
    directory, creating what is missing; a regular file in the way raises. *)
Fixpoint mkdir_from (base : Path) (rest : list pystr) (f : gmap Path Node)
  : result (gmap Path Node) :=
  match rest with
  | [] => Ok f
  | c :: rest' =>
      let q := base ++ [c] in
      match f !! q with
      | Some (File _) =>
          Raise (match rest' with
                 | [] => FileExistsError q
                 | _ => NotADirectoryError q
                 end)
      | Some Dir => mkdir_from q rest' f
      | None => mkdir_from q rest' (<[q := Dir]> f)
      end
  end.

Definition mkdir_parents_exist_ok (p : Path) (f : gmap Path Node)
  : result (gmap Path Node) :=
  mkdir_from [] p f.

(** [path.open(mode='a')]: the content to append to; the file is created when
    absent, which needs its directory. *)
Definition open_append (p : Path) (f : gmap Path Node) : result (list Chunk) :=
  match node_at p f with
  | Some (File content) => Ok content
  | Some Dir => Raise (IsADirectoryError p)
  | None =>
      match node_at (parent p) f with
      | Some Dir => Ok []
      | Some (File _) => Raise (NotADirectoryError p)
      | None => Raise (FileNotFoundError p)
      end
  end.

(** [path.unlink(missing_ok=True)] *)
Definition unlink_missing_ok (p : Path) (f : gmap Path Node)
  : result (gmap Path Node) :=
  match node_at p f with
  | Some (File _) => Ok (delete p f)
  | Some Dir => Raise (IsADirectoryError p)
  | None => Ok f
  end.

(** An external tool leaves [data] at [p]. *)
Definition write_blob (p : Path) (data : pystr) (f : gmap Path Node)
  : gmap Path Node :=
  <[p := File [Blob data]]> f.

(** ** Text encoding and file names *)

(** A surrogate code point, which the UTF-8 codec refuses. *)
Definition is_surrogate (c : N) : bool :=
  ((55296 <=? c) && (c <=? 57343))%N.

(** [s.encode('utf-8')] succeeds. *)
Definition utf8_encodable (s : pystr) : bool :=
  forallb (fun c => negb (is_surrogate c)) s.

(** The number of bytes of a code point in UTF-8. *)
Definition utf8_width (c : N) : Z :=
  if (c <? 128)%N then 1
  else if (c <? 2048)%N then 2
  else if (c <? 65536)%N then 3
  else 4.

Fixpoint utf8_len (s : pystr) : Z :=
  match s with
  | [] => 0
  | c :: s' => utf8_width c + utf8_len s'
  end.

(** The longest file name the file system takes, in bytes. *)
Definition NAME_MAX : Z := 255.

(** [os.stat(p)] fails with ENAMETOOLONG: a component is too long. *)
Definition stat_name_too_long (p : Path) : bool :=
  existsb (fun name => NAME_MAX <? utf8_len name) p.

(** The longest path the system calls take, in bytes, with the final NUL. *)
Definition PATH_MAX : Z := 4096.

(** [name] is a file name the file system takes as it stands: one
    component, without a character the file-system encoding refuses, of at
    most [NAME_MAX] bytes. *)
Definition name_accepted (name : pystr) : bool :=
  plain_component name && utf8_encodable name && (utf8_len name <=? NAME_MAX).

(** Every component of [p] is such a name, and [p] is short enough. *)
Definition path_accepted (p : Path) : bool :=
  forallb name_accepted p && (utf8_len (path_str p) <? PATH_MAX).

(** ** The program *)

(** [CSV_FILE = TOP_GENRES_PATH / Path("songs.csv")] *)
Definition CSV_FILE : Path := path_div TOP_GENRES_PATH (py "songs.csv").

(** The header row of the manifest. *)
Definition header : list pystr := [py "Genre"; py "Song Name"; py "Artist Name"].

(** [save_to_csv].  [file_path.exists()] raises when a name is too long for
    [stat]; nothing is written when it or opening the file raises.  The file
    is opened as UTF-8 text: [writer.writerow] of the song raises
    [UnicodeEncodeError] when a field cannot be encoded, and then none of
    that row is written, while a header written just before stays in the
    file that the [with] block closes. *)
Definition save_to_csv (file_path : Path) (genre song_name artist_name : pystr)
    (w : World) : result unit * World :=
  if stat_name_too_long file_path
  then (Raise (OSError_ENAMETOOLONG file_path), w)
  else
    let file_exists := path_exists file_path (fs w) in
    match open_append file_path (fs w) with
    | Raise e => (Raise e, w)
    | Ok content =>
        let content1 :=
          if negb file_exists then content ++ [Rec header] else content in
        let row := [genre; song_name; artist_name] in
        match List.find (fun field => negb (utf8_encodable field)) row with
        | Some field =>
            (Raise (UnicodeEncodeError field),
             set_fs (<[file_path := File content1]> (fs w)) w)
        | None =>
            (Ok tt,
             set_fs (<[file_path := File (content1 ++ [Rec row])]> (fs w)) w)
        end
    end.

(** [response.get('tracks', {}).get('items', [])] *)
Definition response_items (response : Response) : list Track :=
  match tracks response with
  | None => []
  | Some paging =>
      match items paging with
      | None => []
      | Some l => l
      end
  end.

(** The reads of one iteration of the loop over [tracks], in the order of the
    source: [Ok None] is the [continue] of a short track, [Ok (Some (artist,
    song))] the two names, [Raise] a missing key or an empty artist list. *)
Definition read_track (track : Track) : result (option (pystr * pystr)) :=
  match duration_ms track with
  | None => Raise (KeyError (py "duration_ms"))
  | Some d =>
      if d <? 30 * 1000 then Ok None
      else
        match artists track with
        | None => Raise (KeyError (py "artists"))
        | Some [] => Raise IndexError
        | Some (a :: _) =>
            match a_name a with
            | None => Raise (KeyError (py "name"))
            | Some artist =>
                match t_name track with
                | None => Raise (KeyError (py "name"))
                | Some song => Ok (Some (artist, song))
                end
            end
        end
  end.

(** [for track in tracks: ...] of [get_songs_by_genre].  [results] is the
    list being appended to; it keeps what was appended when an exception
    leaves the loop. *)
Fixpoint process_tracks (genre : pystr) (tracks : list Track)
    (results : list Song) (w : World) : result unit * list Song * World :=
  match tracks with
  | [] => (Ok tt, results, w)
  | track :: rest =>
      match read_track track with
      | Raise e => (Raise e, results, w)
      | Ok None => process_tracks genre rest results w
      | Ok (Some (artist, song)) =>
          let results1 :=
            results ++ [{| artist_name := artist; song_name := song |}] in
          match save_to_csv CSV_FILE genre song artist w with
          | (Raise e, w1) => (Raise e, results1, w1)
          | (Ok _, w1) => process_tracks genre rest results1 w1
          end
      end
  end.

(** The command line of [convert_to_wav]. *)
Definition ffmpeg_args (input_path output_path : Path) : list pystr :=
  [py "ffmpeg"; py "-i"; path_str input_path; py "-ar"; py "44100";
   py "-ac"; py "2"; path_str output_path].

Section Program.

Variable env : Env.
Variable isalnum : char -> bool.

(** The body of the [try] of [get_songs_by_genre]: [Ok] when it reaches one
    of its two [return results], [Raise] when an exception leaves it. *)
Definition try_fetch (genre : pystr) (offset : Z) (results : list Song)
    (w : World) : result unit * list Song * World :=
  let q := py "genre:" ++ genre in
  let r := sp_search env w q (py "track") 50 offset in
  let w1 := log (EvSearch q (py "track") 50 offset r) w in
  match r with
  | Raise e => (Raise e, results, w1)
  | Ok response =>
      match response_items response with
      | [] => (Ok tt, results, print (MsgNoTracks genre offset) w1)
      | tracks =>
          match process_tracks genre tracks results w1 with
          | (Raise e, results1, w2) => (Raise e, results1, w2)
          | (Ok _, results1, w2) =>
              (Ok tt, results1,
               print (MsgFetched (len results1) genre offset) w2)
          end
      end
  end.

(** [while retries < max_calls: try: ... except Exception: ...] and the two
    lines after it.  [None] only when [fuel] runs out. *)
Fixpoint retry_loop (genre : pystr) (offset max_calls : Z) (fuel : nat)
    (retries : Z) (results : list Song) (w : World)
  : option (list Song * World) :=
  if retries <? max_calls then
    match fuel with
    | O => None
    | S fuel' =>
        match try_fetch genre offset results w with
        | (Ok _, results1, w1) => Some (results1, w1)
        | (Raise e, results1, w1) =>
            let retries1 := retries + 1 in
            let w2 := print (MsgApiError retries1 max_calls e) w1 in
            let w3 := log (EvSleep 1) w2 in
            retry_loop genre offset max_calls fuel' retries1 results1 w3
        end
    end
  else Some (results, print (MsgMaxRetries genre offset) w).

(** [get_songs_by_genre(genre, offset, max_calls)]; every pass of the loop
    that does not return adds one to [retries], so [max_calls] passes are
    enough. *)
Definition get_songs_by_genre (genre : pystr) (offset max_calls : Z)
    (w : World) : option (list Song * World) :=
  retry_loop genre offset max_calls (Z.to_nat max_calls) 0 [] w.

(** [convert_to_wav]: [subprocess.run(..., check=True)] raises when the
    binary is missing or the return code is not zero; both are caught.  The
    function has no [return] statement. *)
Definition convert_to_wav (input_path output_path : Path) (w : World)
  : PyVal * World :=
  let args := ffmpeg_args input_path output_path in
  let w1 := log (EvRun args) w in
  match subprocess_run env w args with
  | BinaryMissing =>
      (PyNone,
       print (MsgConvertError input_path (FileNotFoundError [py "ffmpeg"])) w1)
  | Exited returncode output =>
      let w2 :=
        match output with
        | Some data => set_fs (write_blob output_path data (fs w1)) w1
        | None => w1
        end in
      if returncode =? 0 then (PyNone, w2)
      else
        (PyNone,
         print (MsgConvertError input_path (CalledProcessError returncode)) w2)
  end.

(** The body of the [try] of [download_youtube_audio] for one song. *)
Definition try_download (genre_path : Path)
    (song_name artist_name sanitized_name : pystr) (wav_file_path : Path)
    (w : World) : result unit * World :=
  let w1 := print (MsgSearching song_name artist_name) w in
  let query := song_name ++ py " " ++ artist_name ++ py " audio" in
  let r := yt_search env w1 query in
  let w2 := log (EvYtSearch query r) w1 in
  match r with
  | Raise e => (Raise e, w2)
  | Ok [] => (Ok tt, print (MsgNoResults song_name artist_name) w2)
  | Ok (yt :: _) =>
      match get_audio_only yt with
      | Raise e => (Raise e, w2)
      | Ok audio_stream =>
          let filename := sanitized_name ++ py ".m4a" in
          let temp_file_path := path_div genre_path filename in
          let w3 := print (MsgDownloading song_name artist_name) w2 in
          match audio_stream with
          | None => (Raise AttributeError, w3)
          | Some stream =>
              let w4 := log (EvDownload genre_path filename) w3 in
              match download stream with
              | DownloadFailed e None => (Raise e, w4)
              | DownloadFailed e (Some data) =>
                  (Raise e,
                   set_fs (write_blob temp_file_path data (fs w4)) w4)
              | Downloaded data =>
                  let w5 :=
                    set_fs (write_blob temp_file_path data (fs w4)) w4 in
                  let w6 := print (MsgConverting wav_file_path) w5 in
                  let w7 :=
                    snd (convert_to_wav temp_file_path wav_file_path w6) in
                  match unlink_missing_ok temp_file_path (fs w7) with
                  | Raise e => (Raise e, w7)
                  | Ok f => (Ok tt, print (MsgSaved wav_file_path) (set_fs f w7))
                  end
              end
          end
      end
  end.

(** One iteration of [for song in songs: ...], from the point where
    [wav_file_path.exists()] has returned; that call stands before the [try]
    and its exception, raised for a file name too long for [stat], is
    [download_batch]'s. *)
Definition download_one (genre_path : Path) (song : Song) (w : World)
  : World :=
  let sanitized_name :=
    sanitize_filename isalnum (song_name song ++ py "-" ++ artist_name song) in
  let wav_file_path := path_div genre_path (sanitized_name ++ py ".wav") in
  if path_exists wav_file_path (fs w) then print (MsgExists wav_file_path) w
  else
    match try_download genre_path (song_name song) (artist_name song)
            sanitized_name wav_file_path w with
    | (Ok _, w1) => w1
    | (Raise e, w1) =>
        print (MsgProcessingError (song_name song) (artist_name song) e) w1
    end.

(** The iterations for [songs], one after the other, when no [exists()]
    raises. *)
Fixpoint download_songs (genre_path : Path) (songs : list Song) (w : World)
  : World :=
  match songs with
  | [] => w
  | song :: rest => download_songs genre_path rest (download_one genre_path song w)
  end.

(** [for song in songs: ...] with the one exception that escapes it:
    [wav_file_path.exists()] stands before the [try] and raises when the
    file name is too long for [stat]; [download_one] is the iteration from
    the point where [exists()] has returned. *)
Fixpoint download_batch (genre_path : Path) (songs : list Song) (w : World)
  : result World :=
  match songs with
  | [] => Ok w
  | song :: rest =>
      let sanitized_name :=
        sanitize_filename isalnum (song_name song ++ py "-" ++ artist_name song) in
      let wav_file_path := path_div genre_path (sanitized_name ++ py ".wav") in
      if stat_name_too_long wav_file_path
      then Raise (OSError_ENAMETOOLONG wav_file_path)
      else download_batch genre_path rest (download_one genre_path song w)
  end.

(** [download_youtube_audio(songs, genre, output_path)]; an exception of
    [mkdir] is not caught, nor is one of [exists()].  [genre] is taken as one
    path component. *)
Definition download_youtube_audio (songs : list Song) (genre : pystr)
    (output_path : Path) (w : World) : result World :=
  let genre_path := path_div output_path genre in
  if stat_name_too_long genre_path
  then Raise (OSError_ENAMETOOLONG genre_path)
  else
    match mkdir_parents_exist_ok genre_path (fs w) with
    | Raise e => Raise e
    | Ok f => download_batch genre_path songs (set_fs f w)
    end.

(** The default of [output_path], ["dataset/top_genres"], as a path. *)
Definition default_output_path : Path := [py "dataset"; py "top_genres"].

(** The [while] of [build] for one genre, from [(offset, total)]; the result
    is the final [(offset, total_songs_fetched)] and world, or the exception
    that left the loop.  [None] only when [fuel] runs out. *)
Fixpoint fetch_loop (genre : pystr) (songs_per_genre max_api_calls : Z)
    (fuel : nat) (offset total_songs_fetched : Z) (w : World)
  : option (result (Z * Z * World)) :=
  if total_songs_fetched <? songs_per_genre then
    match fuel with
    | O => None
    | S fuel' =>
        match get_songs_by_genre genre offset max_api_calls w with
        | None => None
        | Some ([], w1) =>
            Some (Ok (offset, total_songs_fetched, print (MsgNoMore genre) w1))
        | Some (songs, w1) =>
            match download_youtube_audio songs genre default_output_path w1 with
            | Raise e => Some (Raise e)
            | Ok w2 =>
                let total1 := total_songs_fetched + len songs in
                let offset1 := offset + 50 in
                let w3 := print (MsgTotal genre total1 songs_per_genre) w2 in
                fetch_loop genre songs_per_genre max_api_calls fuel'
                  offset1 total1 w3
            end
        end
    end
  else Some (Ok (offset, total_songs_fetched, w)).

(** The body of [for genre in genres: ...]; each batch that does not end the
    loop adds at least one to the count, so [songs_per_genre] passes are
    enough. *)
Definition build_genre (genre : pystr) (songs_per_genre max_api_calls : Z)
    (w : World) : option (result (Z * Z * World)) :=
  match fetch_loop genre songs_per_genre max_api_calls
          (Z.to_nat songs_per_genre) 0 0 (print (MsgFetching genre) w) with
  | Some (Ok (offset, total, w1)) =>
      Some (Ok (offset, total, print (MsgFinished genre total) w1))
  | r => r
  end.

(** [build(genres, songs_per_genre, max_api_calls)] *)
Fixpoint build (genres : list pystr) (songs_per_genre max_api_calls : Z)
    (w : World) : option (result World) :=
  match genres with
  | [] => Some (Ok w)
  | genre :: rest =>
      match build_genre genre songs_per_genre max_api_calls w with
      | None => None
      | Some (Raise e) => Some (Raise e)
      | Some (Ok (_, _, w1)) => build rest songs_per_genre max_api_calls w1
      end
  end.

End Program.

(** ** Entry point *)

(** [main()], after [argparse]: [build(GENRES, args.number, args.max_retries)]. *)
Definition main (env : Env) (isalnum : char -> bool) (number max_retries : Z)
    (w : World) : option (result World) :=
  build env isalnum GENRES number max_retries w.

(** ** setup_structure *)

(** [SUB_GENRES = { genre: [] for genre in GENRES }] *)
Definition SUB_GENRES : gmap (list N) (list (list N)) :=
  list_to_map (map (fun genre => (genre, [])) GENRES).

(** [path.mkdir(exist_ok=True)]: an existing directory is accepted, a regular
    file at the path or a missing parent raises. *)
Definition mkdir_exist_ok (p : Path) (f : gmap Path Node)
  : result (gmap Path Node) :=
  match node_at p f with
  | Some Dir => Ok f
  | Some (File _) => Raise (FileExistsError p)
  | None =>
      match node_at (parent p) f with
      | Some Dir => Ok (<[p := Dir]> f)
      | Some (File _) => Raise (NotADirectoryError p)
      | None => Raise (FileNotFoundError p)
      end
  end.

(** [for subgenre in SUB_GENRES[genre]: ...mkdir(parents=True, exist_ok=True)] *)
Fixpoint setup_subgenres (genre : pystr) (subgenres : list pystr)
    (f : gmap Path Node) : result (gmap Path Node) :=
  match subgenres with
  | [] => Ok f
  | subgenre :: rest =>
      match mkdir_parents_exist_ok (SUB_GENRES_PATH ++ [genre; subgenre]) f with
      | Raise e => Raise e
      | Ok f1 => setup_subgenres genre rest f1
      end
  end.

(** [for genre in GENRES: ...] of [setup_structure], over any list. *)
Fixpoint setup_genres (genres : list pystr) (f : gmap Path Node)
  : result (gmap Path Node) :=
  match genres with
  | [] => Ok f
  | genre :: rest =>
      match mkdir_exist_ok (path_div TOP_GENRES_PATH genre) f with
      | Raise e => Raise e
      | Ok f1 =>
          match mkdir_exist_ok (path_div SUB_GENRES_PATH genre) f1 with
          | Raise e => Raise e
          | Ok f2 =>
              match SUB_GENRES !! genre with
              | None => Raise (KeyError genre)
              | Some subgenres =>
                  match setup_subgenres genre subgenres f2 with
                  | Raise e => Raise e
                  | Ok f3 => setup_genres rest f3
                  end
              end
          end
      end
  end.

(** [setup_structure()] *)
Definition setup_structure (f : gmap Path Node) : result (gmap Path Node) :=
  match mkdir_parents_exist_ok TOP_GENRES_PATH f with
  | Raise e => Raise e
  | Ok f1 =>
      match mkdir_parents_exist_ok SUB_GENRES_PATH f1 with
      | Raise e => Raise e
      | Ok f2 => setup_genres GENRES f2
      end
  end.

(** * Vocabulary of the statements *)

(** The characters [sanitize_filename] keeps. *)
Definition allowed (isalnum : char -> bool) (c : char) : bool :=
  isalnum c || char_in c (py " -_").

(** What the file at [p] holds; nothing when there is no file there. *)
Definition file_content (p : Path) (f : gmap Path Node) : list Chunk :=
  match node_at p f with
  | Some (File content) => content
  | _ => []
  end.

(** [open(mode='a')] succeeds on [p]. *)
Definition writable (p : Path) (f : gmap Path Node) : bool :=
  match node_at p f with
  | Some (File _) => true
  | Some Dir => false
  | None => is_dir (parent p) f
  end.

(** The record [save_to_csv] appends for one call. *)
Definition row_of (call : pystr * pystr * pystr) : Chunk :=
  let '(genre, song, artist) := call in Rec [genre; song; artist].

(** A run of calls of [save_to_csv] on one file, each given as
    [(genre, song_name, artist_name)], up to the first that raises. *)
Fixpoint save_all (file_path : Path) (calls : list (pystr * pystr * pystr))
    (w : World) : result unit * World :=
  match calls with
  | [] => (Ok tt, w)
  | (genre, song, artist) :: rest =>
      match save_to_csv file_path genre song artist w with
      | (Raise e, w1) => (Raise e, w1)
      | (Ok _, w1) => save_all file_path rest w1
      end
  end.

(** Every field of the call can be encoded. *)
Definition call_encodable (call : pystr * pystr * pystr) : Prop :=
  let '(genre, song, artist) := call in
  utf8_encodable genre = true /\ utf8_encodable song = true /\
  utf8_encodable artist = true.

(** The number of catalog search requests in a trace. *)
Definition is_search (ev : Event) : bool :=
  match ev with
  | EvSearch _ _ _ _ _ => true
  | _ => false
  end.

Definition search_calls (events : list Event) : nat :=
  length (List.filter is_search events).

(** The events of one failed attempt of [get_songs_by_genre], the [i]-th:
    the request that raised [e], the log line, the one-second sleep. *)
Definition failed_attempt (genre : pystr) (offset max_calls i : Z) (e : Exc)
  : list Event :=
  [ EvSearch (py "genre:" ++ genre) (py "track") 50 offset (Raise e);
    EvPrint (MsgApiError i max_calls e);
    EvSleep 1 ].

(** Consecutive failed attempts numbered from [i], one per exception. *)
Fixpoint failed_attempts (genre : pystr) (offset max_calls i : Z)
    (es : list Exc) : list Event :=
  match es with
  | [] => []
  | e :: es' =>
      failed_attempt genre offset max_calls i e
      ++ failed_attempts genre offset max_calls (i + 1) es'
  end.

(** Every catalog search raises. *)
Definition always_raises (env : Env) : Prop :=
  forall w q type_ limit offset,
    exists e, sp_search env w q type_ limit offset = Raise e.

(** The number of search requests one call of [get_songs_by_genre] issues. *)
Definition search_attempts (env : Env) (genre : pystr) (offset max_calls : Z)
    (w : World) : option nat :=
  match get_songs_by_genre env genre offset max_calls w with
  | Some (_, w') =>
      Some (search_calls (trace w') - search_calls (trace w))%nat
  | None => None
  end.

(** The catalog handed out track [t] in one of the responses of [events]. *)
Definition served (events : list Event) (t : Track) : Prop :=
  exists q type_ limit offset response,
    In (EvSearch q type_ limit offset (Ok response)) events /\
    In t (response_items response).

(** [t] has a duration below the 30-second floor. *)
Definition is_short (t : Track) : bool :=
  match duration_ms t with
  | Some d => d <? 30000
  | None => false
  end.

(** [t] lasts at least 30 seconds and carries the two names. *)
Definition long_track (t : Track) (artist song : pystr) : Prop :=
  exists d a others,
    duration_ms t = Some d /\ 30000 <= d /\
    artists t = Some (a :: others) /\ a_name a = Some artist /\
    t_name t = Some song.

Definition from_long_track (events : list Event) (artist song : pystr) : Prop :=
  exists t, served events t /\ long_track t artist song.

(** A record of the manifest written for [genre]: the header, or the row of
    a track of at least 30 seconds served in [events]. *)
Definition manifest_row_ok (genre : pystr) (events : list Event) (r : Chunk)
  : Prop :=
  r = Rec header \/
  exists artist song,
    r = Rec [genre; song; artist] /\ from_long_track events artist song.

(** What one call, or any part of it, may do: extend the trace by [events],
    the list by [kept] and the manifest by [rows], where every new entry and
    every new row comes from a track of at least 30 seconds served in
    [events]. *)
Definition extends_by (genre : pystr) (results : list Song) (w : World)
    (results' : list Song) (w' : World) : Prop :=
  exists events kept rows,
    trace w' = trace w ++ events /\
    results' = results ++ kept /\
    file_content CSV_FILE (fs w') = file_content CSV_FILE (fs w) ++ rows /\
    Forall (fun s => from_long_track events (artist_name s) (song_name s)) kept /\
    Forall (manifest_row_ok genre events) rows.

(** The transcode step in a trace. *)
Definition is_run (ev : Event) : bool :=
  match ev with
  | EvRun _ => true
  | _ => false
  end.

(** The paths [download_youtube_audio] derives for a song. *)
Definition sanitized_name (isalnum : char -> bool) (song : Song) : pystr :=
  sanitize_filename isalnum (song_name song ++ py "-" ++ artist_name song).

Definition wav_file_path (isalnum : char -> bool) (genre_path : Path)
    (song : Song) : Path :=
  path_div genre_path (sanitized_name isalnum song ++ py ".wav").

Definition temp_file_path (isalnum : char -> bool) (genre_path : Path)
    (song : Song) : Path :=
  path_div genre_path (sanitized_name isalnum song ++ py ".m4a").

(** From world [w], the search for [song] finds a video whose audio stream
    downloads completely, as [data]. *)
Definition download_completes (env : Env) (song : Song) (w : World)
    (data : pystr) : Prop :=
  exists yt others stream,
    yt_search env (print (MsgSearching (song_name song) (artist_name song)) w)
      (song_name song ++ py " " ++ artist_name song ++ py " audio")
    = Ok (yt :: others) /\
    get_audio_only yt = Ok (Some stream) /\
    download stream = Downloaded data.

(** The log line [convert_to_wav] prints for each outcome of the process. *)
Definition convert_log (input_path : Path) (outcome : ProcOutcome)
  : list Event :=
  match outcome with
  | Exited 0 _ => []
  | Exited returncode _ =>
      [EvPrint (MsgConvertError input_path (CalledProcessError returncode))]
  | BinaryMissing =>
      [EvPrint (MsgConvertError input_path (FileNotFoundError [py "ffmpeg"]))]
  end.





(** The file system [f'] is [f] with some missing paths among [places]
    turned into directories: nothing is removed, nothing is replaced. *)
Definition adds_dirs (places : list Path) (f f' : gmap Path Node) : Prop :=
  forall p : Path,
    f' !! p = f !! p \/
    (f !! p = None /\ f' !! p = Some Dir /\ In p places).

(** The paths [mkdir(parents=True)] walks through below [base]. *)
Fixpoint prefixes_from (base : Path) (rest : list pystr) : list Path :=
  match rest with
  | [] => []
  | c :: rest' => (base ++ [c]) :: prefixes_from (base ++ [c]) rest'
  end.

(** The directories [setup_structure] is to provide. *)
Definition genre_dirs (genres : list pystr) : list Path :=
  flat_map (fun genre => [path_div TOP_GENRES_PATH genre;
                          path_div SUB_GENRES_PATH genre]) genres.

Definition required_dirs : list Path :=
  [ [py "dataset"]; TOP_GENRES_PATH; SUB_GENRES_PATH ] ++ genre_dirs GENRES.

Definition is_directory (f : gmap Path Node) (p : Path) : Prop :=
  f !! p = Some Dir.

Definition not_a_file (f : gmap Path Node) (p : Path) : Prop :=
  f !! p = None \/ f !! p = Some Dir.

(** The one-second sleeps in a trace. *)
Definition is_sleep (ev : Event) : bool :=
  match ev with
  | EvSleep _ => true
  | _ => false
  end.

Definition sleep_calls (events : list Event) : nat :=
  length (List.filter is_sleep events).

(** An event a call of [get_songs_by_genre] for [genre] at [offset] may
    record: a search is for that genre and page, a sleep lasts one second. *)
Definition same_page (genre : pystr) (offset : Z) (ev : Event) : Prop :=
  match ev with
  | EvSearch q type_ limit offset' _ =>
      q = py "genre:" ++ genre /\ type_ = py "track" /\ limit = 50 /\
      offset' = offset
  | EvSleep secs => secs = 1
  | EvPrint _ => True
  | _ => False
  end.

(** The entry a track of the catalog stands for in the dataset: its first
    artist and its title when it lasts at least 30000 ms, nothing when it is
    shorter or lacks one of the two. *)
Definition entry_of (t : Track) : option Song :=
  match duration_ms t with
  | Some d =>
      if 30000 <=? d then
        match artists t, t_name t with
        | Some (a :: _), Some song =>
            match a_name a with
            | Some artist => Some {| artist_name := artist; song_name := song |}
            | None => None
            end
        | _, _ => None
        end
      else None
  | None => None
  end.

(** The track carries its duration and, when it lasts at least 30000 ms, an
    artist with a name and its title. *)
Definition has_keys (t : Track) : Prop :=
  exists d,
    duration_ms t = Some d /\
    (30000 <= d ->
     exists a others artist song,
       artists t = Some (a :: others) /\ a_name a = Some artist /\
       t_name t = Some song).

(** The track lacks its duration, or lasts at least 30000 ms and lacks an
    artist, the artist's name or its title. *)
Definition lacks_key (t : Track) : Prop :=
  duration_ms t = None \/
  exists d,
    duration_ms t = Some d /\ 30000 <= d /\
    (artists t = None \/ artists t = Some [] \/
     exists a others,
       artists t = Some (a :: others) /\
       (a_name a = None \/ t_name t = None)).

(** The two names of an entry can be encoded. *)
Definition song_encodable (s : Song) : bool :=
  utf8_encodable (song_name s) && utf8_encodable (artist_name s).

(** The names the track gives to its entry, if any, can be encoded. *)
Definition track_encodable (t : Track) : bool :=
  match entry_of t with
  | Some s => song_encodable s
  | None => true
  end.

(** The catalog serves only tracks whose names can be encoded. *)
Definition serves_encodable (env : Env) : Prop :=
  forall w q type_ limit offset response,
    sp_search env w q type_ limit offset = Ok response ->
    Forall (fun t => track_encodable t = true) (response_items response).

(** The manifest record of an entry. *)
Definition song_row (genre : pystr) (s : Song) : Chunk :=
  Rec [genre; song_name s; artist_name s].

(** The records a call appends to a manifest it can open, for the entries
    [results] it returns: the header first when the file is new. *)
Definition appended_rows (genre : pystr) (existed : bool)
    (results : list Song) : list Chunk :=
  match results with
  | [] => []
  | _ => (if existed then [] else [Rec header]) ++ map (song_row genre) results
  end.

(** The file system of [w] against that of [w0], when [results] are the
    entries appended since: only the manifest may differ, and when it could
    be opened in [w0] it holds one more record per entry, under a header if
    it is new. *)
Definition manifest_matches (genre : pystr) (w0 : World)
    (results : list Song) (w : World) : Prop :=
  (forall q : Path, q <> CSV_FILE -> fs w !! q = fs w0 !! q) /\
  (writable CSV_FILE (fs w0) = true ->
   writable CSV_FILE (fs w) = true /\
   file_content CSV_FILE (fs w)
   = file_content CSV_FILE (fs w0)
     ++ appended_rows genre (path_exists CSV_FILE (fs w0)) results /\
   path_exists CSV_FILE (fs w)
   = match results with
     | [] => path_exists CSV_FILE (fs w0)
     | _ => true
     end).

(** ** Concrete worlds and environments *)

(** A fresh working directory and an empty trace. *)
Definition w_empty : World := {| fs := ∅; trace := [] |}.

(** The catalog is down: every search raises; nothing else is available. *)
Definition env_catalog_down : Env := {|
  sp_search := fun _ _ _ _ _ => Raise (ExternalError (py "HTTP 503"));
  yt_search := fun _ _ => Ok [];
  subprocess_run := fun _ _ => BinaryMissing
|}.

(** ffmpeg runs and exits with code 0, leaving the converted file. *)
Definition env_ffmpeg_ok : Env := {|
  sp_search := fun _ _ _ _ _ => Ok {| tracks := None |};
  yt_search := fun _ _ =>
    Ok [ {| get_audio_only := Ok (Some {| download := Downloaded (py "m4a data") |}) |} ];
  subprocess_run := fun _ _ => Exited 0 (Some (py "wav data"))
|}.

(** ffmpeg runs and exits with code 1, leaving nothing. *)
Definition env_ffmpeg_fails : Env := {|
  sp_search := fun _ _ _ _ _ => Ok {| tracks := None |};
  yt_search := fun _ _ =>
    Ok [ {| get_audio_only := Ok (Some {| download := Downloaded (py "m4a data") |}) |} ];
  subprocess_run := fun _ _ => Exited 1 None
|}.

Definition jazz_path : Path := path_div default_output_path (py "jazz").

Definition so_what : Song :=
  {| artist_name := py "Miles Davis"; song_name := py "So What" |}.

(** The output directory exists, as after a first batch or [mkdir -p]. *)
Definition w_ready : World := {|
  fs := <[ [py "dataset"; py "top_genres"] := Dir ]>
          (<[ [py "dataset"] := Dir ]> ∅);
  trace := []
|}.


(** The [.wav] of [so_what] is already in the jazz directory. *)
Definition w_have_so_what : World := {|
  fs := <[ wav_file_path ascii_isalnum jazz_path so_what
           := File [Blob (py "wav data")] ]>
          (<[ jazz_path := Dir ]> (fs w_ready));
  trace := []
|}.

Definition track (d : Z) (artist song : string) : Track := {|
  duration_ms := Some d;
  artists := Some [ {| a_name := Some (py artist) |} ];
  t_name := Some (py song)
|}.

(** One page of three tracks, the second shorter than 30 seconds, then empty
    pages; downloads and conversions succeed. *)
Definition env_one_page : Env := {|
  sp_search := fun _ _ _ _ offset =>
    if offset =? 0 then
      Ok {| tracks := Some {| items := Some
              [ track 545000 "Miles Davis" "So What";
                track 12000 "Miles Davis" "Intro";
                track 589000 "Miles Davis" "Freddie Freeloader" ] |} |}
    else Ok {| tracks := Some {| items := Some [] |} |};
  yt_search := fun _ _ =>
    Ok [ {| get_audio_only := Ok (Some {| download := Downloaded (py "m4a data") |}) |} ];
  subprocess_run := fun _ _ => Exited 0 (Some (py "wav data"))
|}.

(** A page whose second track lacks its name, served at every request. *)
Definition bad_page : Response :=
  {| tracks := Some {| items := Some
       [ track 545000 "Miles Davis" "So What";
         {| duration_ms := Some 200000;
            artists := Some [ {| a_name := Some (py "Anonymous") |} ];
            t_name := None |};
         track 589000 "Miles Davis" "Freddie Freeloader" ] |} |}.

Definition env_bad_page : Env := {|
  sp_search := fun _ _ _ _ _ => Ok bad_page;
  yt_search := fun _ _ => Ok [];
  subprocess_run := fun _ _ => BinaryMissing
|}.

(** The page [env_one_page] serves at offset 0. *)
Definition one_page : Response :=
  {| tracks := Some {| items := Some
       [ track 545000 "Miles Davis" "So What";
         track 12000 "Miles Davis" "Intro";
         track 589000 "Miles Davis" "Freddie Freeloader" ] |} |}.

(** * Properties *)

(** ** sanitize_filename *)

Lemma join_nil_cons (p : pystr) (parts : list pystr) :
  join [] (p :: parts) = p ++ join [] parts.
Proof.
  destruct parts as [|p' parts]; simpl.
  - by rewrite app_nil_r.
  - reflexivity.
Qed.

Lemma sanitize_filename_cons isalnum (c : char) (s : pystr) :
  sanitize_filename isalnum (c :: s)
  = (if allowed isalnum c then c else N_of_ascii "_") :: sanitize_filename isalnum s.
Proof.
  unfold sanitize_filename. rewrite map_cons, join_nil_cons.
  unfold sanitize_char, allowed. by destruct (isalnum c || char_in c (py " -_")).
Qed.

Lemma sanitize_filename_map isalnum (s : pystr) :
  sanitize_filename isalnum s
  = map (fun c => if allowed isalnum c then c else N_of_ascii "_") s.
Proof.
  induction s as [|c s IH]; [reflexivity|].
  by rewrite sanitize_filename_cons, IH.
Qed.

Lemma sanitize_filename_app isalnum (s t : pystr) :
  sanitize_filename isalnum (s ++ t)
  = sanitize_filename isalnum s ++ sanitize_filename isalnum t.
Proof. by rewrite !sanitize_filename_map, map_app. Qed.

Lemma char_in_spec (c : char) :
  char_in c (py " -_") = true ->
  c = N_of_ascii " " \/ c = N_of_ascii "-" \/ c = N_of_ascii "_".
Proof.
  unfold char_in; cbn. rewrite !orb_true_iff, !N.eqb_eq.
  intuition discriminate.
Qed.

(** C8: every character of a sanitized file name is alphanumeric (in the
    sense of [str.isalnum]), a space, a hyphen or an underscore. *)
Theorem sanitize_filename_charset isalnum (filename : pystr) :
  Forall (fun c => isalnum c = true \/ c = N_of_ascii " "
                   \/ c = N_of_ascii "-" \/ c = N_of_ascii "_")
         (sanitize_filename isalnum filename).
Proof.
  rewrite sanitize_filename_map. apply Forall_map, Forall_forall.
  intros c _. cbv beta. unfold allowed.
  destruct (isalnum c) eqn:Ha; [by left|].
  rewrite orb_false_l.
  destruct (char_in c (py " -_")) eqn:Hin.
  - right. by apply char_in_spec.
  - right; right; right. reflexivity.
Qed.

(** C9: sanitizing keeps the length; position by position a character is
    kept when it is alphanumeric, a space, a hyphen or an underscore and is
    replaced by an underscore otherwise; hence two different names that
    differ by a disallowed character against an underscore get the same
    file name. *)
Theorem sanitize_filename_in_place isalnum (s : pystr) :
  length (sanitize_filename isalnum s) = length s /\
  (forall (i : nat) (c : char),
      s !! i = Some c ->
      sanitize_filename isalnum s !! i
      = Some (if isalnum c || char_in c (py " -_") then c else N_of_ascii "_")) /\
  (forall (c : char) (post : pystr),
      isalnum c || char_in c (py " -_") = false ->
      s ++ c :: post <> s ++ N_of_ascii "_" :: post /\
      sanitize_filename isalnum (s ++ c :: post)
      = sanitize_filename isalnum (s ++ N_of_ascii "_" :: post)).
Proof.
  split; [|split].
  - by rewrite sanitize_filename_map, length_map.
  - intros i c Hi. rewrite sanitize_filename_map, list_lookup_fmap_Some.
    exists c. by split.
  - intros c post Hc. split.
    + intros Heq. apply app_inv_head in Heq. injection Heq as ->.
      apply orb_false_elim in Hc as [_ Hc]. discriminate Hc.
    + rewrite !sanitize_filename_app, !sanitize_filename_cons.
      assert (Hu : allowed isalnum (N_of_ascii "_") = true)
        by (unfold allowed; apply orb_true_r).
      unfold allowed at 1. by rewrite Hc, Hu.
Qed.

(** ** save_to_csv *)

Lemma row_encodable genre song artist :
  List.find (fun field => negb (utf8_encodable field)) [genre; song; artist]
  = None <->
  call_encodable (genre, song, artist).
Proof.
  unfold call_encodable. cbn [List.find].
  destruct (utf8_encodable genre), (utf8_encodable song),
    (utf8_encodable artist); cbn; split; try done; intros (? & ? & ?); done.
Qed.

Lemma save_to_csv_ok file_path genre song artist w (u : unit) w' :
  save_to_csv file_path genre song artist w = (Ok u, w') ->
  file_path <> [] /\
  trace w' = trace w /\
  fs w' = <[file_path :=
              File (file_content file_path (fs w)
                    ++ (if path_exists file_path (fs w) then [] else [Rec header])
                    ++ [Rec [genre; song; artist]])]> (fs w).
Proof.
  unfold save_to_csv, open_append, path_exists, file_content, is_dir.
  destruct (stat_name_too_long file_path); [discriminate|].
  destruct file_path as [|c p]; [discriminate|].
  cbn [node_at].
  destruct (fs w !! (c :: p)) as [[|content]|] eqn:Hn; try discriminate.
  - destruct (List.find _ _); [discriminate|]. intros [= _ <-]. by cbn.
  - destruct (node_at (parent (c :: p)) (fs w)) as [[|?]|]; try discriminate.
    destruct (List.find _ _); [discriminate|]. intros [= _ <-]. by cbn.
Qed.

(** A call that raises leaves the file as it was, or new with the header
    alone when the row could not be encoded. *)
Lemma save_to_csv_raise file_path genre song artist w e w' :
  save_to_csv file_path genre song artist w = (Raise e, w') ->
  trace w' = trace w /\
  (fs w' = fs w \/
   (file_path <> [] /\
    ~ call_encodable (genre, song, artist) /\
    fs w' = <[file_path :=
                File (file_content file_path (fs w)
                      ++ (if path_exists file_path (fs w) then []
                          else [Rec header]))]> (fs w))).
Proof.
  unfold save_to_csv, open_append, path_exists, file_content, is_dir.
  destruct (stat_name_too_long file_path);
    [intros [= <- <-]; by split; [|left]|].
  destruct file_path as [|c p]; [intros [= <- <-]; by split; [|left]|].
  cbn [node_at].
  destruct (fs w !! (c :: p)) as [[|content]|] eqn:Hn.
  - intros [= <- <-]. by split; [|left].
  - destruct (List.find _ _) as [field|] eqn:Hf; [|discriminate].
    intros [= <- <-]. split; [done|]. right. split; [done|]. split.
    + intros He. apply row_encodable in He. congruence.
    + cbn. by rewrite app_nil_r.
  - destruct (node_at (parent (c :: p)) (fs w)) as [[|?]|];
      try (intros [= <- <-]; by split; [|left]).
    destruct (List.find _ _) as [field|] eqn:Hf; [|discriminate].
    intros [= <- <-]. split; [done|]. right. split; [done|]. split.
    + intros He. apply row_encodable in He. congruence.
    + done.
Qed.

Lemma save_to_csv_writable file_path genre song artist w :
  stat_name_too_long file_path = false ->
  writable file_path (fs w) = true ->
  call_encodable (genre, song, artist) ->
  exists w', save_to_csv file_path genre song artist w = (Ok tt, w').
Proof.
  intros Hshort Hw He. apply row_encodable in He.
  unfold writable, save_to_csv, open_append, is_dir in *. rewrite Hshort, He.
  destruct (node_at file_path (fs w)) as [[|content]|]; try discriminate.
  - eauto.
  - destruct (node_at (parent file_path) (fs w)) as [[|?]|];
      try discriminate. eauto.
Qed.

Lemma path_accepted_short (p : Path) :
  path_accepted p = true -> stat_name_too_long p = false.
Proof.
  unfold path_accepted, stat_name_too_long. intros H.
  apply andb_prop in H as [H _].
  induction p as [|name p IH]; [done|].
  cbn [forallb existsb] in *. apply andb_prop in H as [Hname Hp].
  rewrite (IH Hp), orb_false_r.
  unfold name_accepted in Hname. apply andb_prop in Hname as [_ Hlen].
  apply Z.leb_le in Hlen. by apply Z.ltb_ge.
Qed.

Lemma CSV_FILE_short : stat_name_too_long CSV_FILE = false.
Proof. reflexivity. Qed.

Lemma file_content_insert (p : Path) (content : list Chunk)
    (f : gmap Path Node) :
  p <> [] -> file_content p (<[p := File content]> f) = content.
Proof.
  intros Hp. unfold file_content. destruct p; [done|].
  cbn [node_at]. by rewrite lookup_insert_eq.
Qed.

Lemma path_exists_insert (p : Path) (n : Node) (f : gmap Path Node) :
  path_exists p (<[p := n]> f) = true.
Proof.
  unfold path_exists. destruct p; [done|].
  cbn [node_at]. by rewrite lookup_insert_eq.
Qed.

Lemma writable_insert_file (p : Path) (content : list Chunk)
    (f : gmap Path Node) :
  p <> [] -> writable p (<[p := File content]> f) = true.
Proof.
  intros Hp. unfold writable. destruct p; [done|].
  cbn [node_at]. by rewrite lookup_insert_eq.
Qed.

(** A run on a file that exists: the records of the calls that succeeded
    are appended, and nothing else changes. *)
Lemma save_all_existing file_path calls : forall w r w',
  path_exists file_path (fs w) = true ->
  save_all file_path calls w = (r, w') ->
  exists saved rest,
    calls = saved ++ rest /\
    match r with Ok _ => rest = [] | Raise _ => rest <> [] end /\
    trace w' = trace w /\
    path_exists file_path (fs w') = true /\
    file_content file_path (fs w')
    = file_content file_path (fs w) ++ map row_of saved /\
    (forall q : Path, q <> file_path -> fs w' !! q = fs w !! q).
Proof.
  induction calls as [|[[genre song] artist] rest IH]; intros w r w' Hex Hrun.
  - cbn in Hrun. injection Hrun as <- <-. exists [], []. cbn [map app].
    rewrite app_nil_r. by repeat split.
  - cbn [save_all] in Hrun.
    destruct (save_to_csv file_path genre song artist w) as [[[]|e] w1] eqn:Hs.
    + apply save_to_csv_ok in Hs as (Hp & Ht & Hf). rewrite Hex in Hf.
      destruct (IH w1 r w') as (saved & rest' & -> & Hr & Ht' & Hex' & Hc' & Ho');
        [|done|].
      { rewrite Hf. apply path_exists_insert. }
      exists ((genre, song, artist) :: saved), rest'.
      split; [done|]. split; [done|]. split; [congruence|]. split; [done|].
      split.
      * rewrite Hc', Hf, file_content_insert by done.
        cbn [map row_of app]. by rewrite <- !app_assoc.
      * intros q Hq. rewrite Ho', Hf by done. by apply lookup_insert_ne.
    + injection Hrun as <- <-.
      apply save_to_csv_raise in Hs as (Ht & [Hf|(Hp & _ & Hf)]).
      * exists [], ((genre, song, artist) :: rest). rewrite Hf, app_nil_r.
        by repeat split.
      * exists [], ((genre, song, artist) :: rest). rewrite Hex in Hf.
        rewrite Hf, file_content_insert, path_exists_insert, !app_nil_r by done.
        repeat split; try done. intros q Hq. by apply lookup_insert_ne.
Qed.

(** Any run on any file. *)
Lemma save_all_run file_path calls w r w' :
  save_all file_path calls w = (r, w') ->
  exists saved rest,
    calls = saved ++ rest /\
    match r with Ok _ => rest = [] | Raise _ => rest <> [] end /\
    trace w' = trace w /\
    (saved <> [] -> path_exists file_path (fs w') = true) /\
    file_content file_path (fs w')
    = file_content file_path (fs w)
      ++ (if path_exists file_path (fs w) then []
          else if path_exists file_path (fs w') then [Rec header] else [])
      ++ map row_of saved /\
    (forall q : Path, q <> file_path -> fs w' !! q = fs w !! q).
Proof.
  intros Hrun. destruct (path_exists file_path (fs w)) eqn:Hex.
  { destruct (save_all_existing file_path calls w r w' Hex Hrun)
      as (saved & rest & Hc & Hr & Ht & Hex' & Hcont & Ho).
    exists saved, rest. by repeat split. }
  destruct calls as [|[[genre song] artist] calls].
  { cbn in Hrun. injection Hrun as <- <-. exists [], [].
    rewrite Hex, !app_nil_r.
    by repeat split. }
  cbn [save_all] in Hrun.
  destruct (save_to_csv file_path genre song artist w) as [[[]|e] w1] eqn:Hs.
  - apply save_to_csv_ok in Hs as (Hp & Ht & Hf). rewrite Hex in Hf.
    destruct (save_all_existing file_path calls w1 r w')
      as (saved & rest & -> & Hr & Ht' & Hex' & Hc' & Ho'); [|done|].
    { rewrite Hf. apply path_exists_insert. }
    exists ((genre, song, artist) :: saved), rest. rewrite Hex'.
    split; [done|]. split; [done|]. split; [congruence|]. split; [done|].
    split.
    + rewrite Hc', Hf, file_content_insert by done.
      cbn [map row_of app]. by rewrite <- !app_assoc.
    + intros q Hq. rewrite Ho', Hf by done. by apply lookup_insert_ne.
  - injection Hrun as <- <-.
    apply save_to_csv_raise in Hs as (Ht & [Hf|(Hp & _ & Hf)]).
    + exists [], ((genre, song, artist) :: calls).
      rewrite Hf, Hex, !app_nil_r. by repeat split.
    + exists [], ((genre, song, artist) :: calls). rewrite Hex in Hf.
      rewrite Hf, file_content_insert, path_exists_insert, !app_nil_r by done.
      repeat split; try done. intros q Hq. by apply lookup_insert_ne.
Qed.

(** C7: a run of calls of [save_to_csv] on one file only appends: what the
    file held stays in front, one record per call follows in call order, and
    the header row stands between the two exactly when the file did not exist
    at the first call; other files are untouched.  Every call succeeds once
    the file system takes the path, the file can be opened for appending and
    the fields can be encoded.  A
    run that a call ends by raising has appended the records of the calls
    before it, under the header when it created the file, and nothing else:
    no record is ever rewritten or removed. *)
Theorem save_to_csv_append_only file_path
    (calls : list (pystr * pystr * pystr)) (w : World) :
  (path_accepted file_path = true ->
   writable file_path (fs w) = true ->
   Forall call_encodable calls ->
   exists w', save_all file_path calls w = (Ok tt, w')) /\
  (forall w',
      save_all file_path calls w = (Ok tt, w') ->
      trace w' = trace w /\
      file_content file_path (fs w')
      = file_content file_path (fs w)
        ++ (if path_exists file_path (fs w) then []
            else match calls with [] => [] | _ => [Rec header] end)
        ++ map row_of calls /\
      (forall q : Path, q <> file_path -> fs w' !! q = fs w !! q)) /\
  (forall e w',
      save_all file_path calls w = (Raise e, w') ->
      exists saved rest,
        calls = saved ++ rest /\ rest <> [] /\
        trace w' = trace w /\
        file_content file_path (fs w')
        = file_content file_path (fs w)
          ++ (if path_exists file_path (fs w) then []
              else if path_exists file_path (fs w') then [Rec header] else [])
          ++ map row_of saved /\
        (forall q : Path, q <> file_path -> fs w' !! q = fs w !! q)).
Proof.
  split; [|split].
  - intros Hpath. apply path_accepted_short in Hpath.
    revert w. induction calls as [|[[genre song] artist] rest IH];
      intros w Hw Henc.
    + by exists w.
    + apply Forall_cons in Henc as [Hc Henc]. cbn [save_all].
      destruct (save_to_csv_writable file_path genre song artist w Hpath Hw Hc)
        as [w1 Hs].
      rewrite Hs. apply IH; [|done].
      apply save_to_csv_ok in Hs as (Hp & _ & Hf).
      rewrite Hf. by apply writable_insert_file.
  - intros w' Hrun.
    destruct (save_all_run file_path calls w (Ok tt) w' Hrun)
      as (saved & rest & Hc & -> & Ht & Hex' & Hcont & Ho).
    rewrite app_nil_r in Hc. subst saved.
    split; [done|]. split; [|done]. rewrite Hcont.
    destruct calls as [|c calls].
    + cbn in Hrun. injection Hrun as <-.
      by destruct (path_exists file_path (fs w)).
    + by rewrite Hex'.
  - intros e w' Hrun.
    destruct (save_all_run file_path calls w (Raise e) w' Hrun)
      as (saved & rest & Hc & Hr & Ht & _ & Hcont & Ho).
    exists saved, rest. by repeat split.
Qed.

(** ** get_songs_by_genre *)

Lemma retry_loop_exit env genre offset max_calls fuel retries results w :
  max_calls <= retries ->
  retry_loop env genre offset max_calls fuel retries results w
  = Some (results, print (MsgMaxRetries genre offset) w).
Proof.
  intros H. destruct fuel; cbn [retry_loop];
    by rewrite (proj2 (Z.ltb_ge retries max_calls) H).
Qed.

(** The loop returns: enough fuel is what separates [retries] from
    [max_calls]. *)
Lemma retry_loop_total env genre offset max_calls fuel :
  forall retries results w,
    (Z.to_nat (max_calls - retries) <= fuel)%nat ->
    exists r, retry_loop env genre offset max_calls fuel retries results w
              = Some r.
Proof.
  induction fuel as [|fuel IH]; intros retries results w Hfuel.
  - rewrite retry_loop_exit by lia. eauto.
  - cbn [retry_loop]. destruct (retries <? max_calls) eqn:Hlt; [|eauto].
    apply Z.ltb_lt in Hlt.
    destruct (try_fetch env genre offset results w) as [[[[]|e] results1] w1];
      [eauto|].
    apply IH. lia.
Qed.

Lemma get_songs_by_genre_total env genre offset max_calls w :
  exists r, get_songs_by_genre env genre offset max_calls w = Some r.
Proof. apply retry_loop_total. lia. Qed.

(** C10: with [max_calls <= 0] the call returns the empty list at once: the
    only effect is the closing log line, so no search request is issued and
    no file is touched. *)
Theorem get_songs_by_genre_no_calls env genre offset max_calls w :
  max_calls <= 0 ->
  exists w',
    get_songs_by_genre env genre offset max_calls w = Some ([], w') /\
    fs w' = fs w /\
    trace w' = trace w ++ [EvPrint (MsgMaxRetries genre offset)] /\
    search_attempts env genre offset max_calls w = Some 0%nat.
Proof.
  intros H. exists (print (MsgMaxRetries genre offset) w).
  assert (Hg : get_songs_by_genre env genre offset max_calls w
               = Some ([], print (MsgMaxRetries genre offset) w))
    by (apply retry_loop_exit; lia).
  repeat split; [done|].
  unfold search_attempts. rewrite Hg. f_equal. cbn [print log trace].
  unfold search_calls. rewrite List.filter_app, length_app. cbn. lia.
Qed.

Lemma search_calls_app (l1 l2 : list Event) :
  search_calls (l1 ++ l2) = (search_calls l1 + search_calls l2)%nat.
Proof. unfold search_calls. by rewrite List.filter_app, length_app. Qed.

Lemma search_calls_failed_attempts genre offset max_calls (es : list Exc) :
  forall i,
    search_calls (failed_attempts genre offset max_calls i es) = length es.
Proof.
  induction es as [|e es IH]; intros i; [reflexivity|].
  cbn [failed_attempts]. rewrite search_calls_app, IH. reflexivity.
Qed.

Lemma try_fetch_raise env genre offset results w e :
  sp_search env w (py "genre:" ++ genre) (py "track") 50 offset = Raise e ->
  try_fetch env genre offset results w
  = (Raise e, results,
     log (EvSearch (py "genre:" ++ genre) (py "track") 50 offset (Raise e)) w).
Proof. intros H. unfold try_fetch. by rewrite H. Qed.

Lemma retry_loop_always_raises env genre offset max_calls :
  always_raises env ->
  forall fuel retries results w,
    fuel = Z.to_nat (max_calls - retries) ->
    exists es w',
      retry_loop env genre offset max_calls fuel retries results w
      = Some (results, w') /\
      length es = fuel /\
      fs w' = fs w /\
      trace w'
      = trace w ++ failed_attempts genre offset max_calls (retries + 1) es
        ++ [EvPrint (MsgMaxRetries genre offset)].
Proof.
  intros Hdown. induction fuel as [|fuel IH]; intros retries results w Hfuel.
  - exists [], (print (MsgMaxRetries genre offset) w).
    rewrite retry_loop_exit by lia. done.
  - cbn [retry_loop].
    assert (Hlt : (retries <? max_calls) = true) by (apply Z.ltb_lt; lia).
    rewrite Hlt.
    destruct (Hdown w (py "genre:" ++ genre) (py "track") 50 offset) as [e He].
    rewrite (try_fetch_raise _ _ _ _ _ _ He).
    edestruct (IH (retries + 1) results) as (es & w' & Hrun & Hlen & Hfs & Htr);
      [lia|].
    exists (e :: es), w'. split; [exact Hrun|].
    split; [cbn; congruence|]. split; [by rewrite Hfs|].
    rewrite Htr. cbn [failed_attempts failed_attempt log print trace].
    by rewrite <- !app_assoc.
Qed.

(** C1, as the code has it: when every catalog search raises, the call makes
    [max(0, max_calls)] attempts, each one a search request followed by its
    log line and a one-second sleep, then logs that the retries are used up
    and returns the empty list; no file is touched and nothing is raised. *)
Theorem get_songs_by_genre_retry_bound env genre offset max_calls w :
  always_raises env ->
  exists es w',
    get_songs_by_genre env genre offset max_calls w = Some ([], w') /\
    Z.of_nat (length es) = Z.max 0 max_calls /\
    fs w' = fs w /\
    trace w'
    = trace w ++ failed_attempts genre offset max_calls 1 es
      ++ [EvPrint (MsgMaxRetries genre offset)] /\
    search_attempts env genre offset max_calls w
    = Some (Z.to_nat (Z.max 0 max_calls)).
Proof.
  intros Hdown.
  destruct (retry_loop_always_raises env genre offset max_calls Hdown
              (Z.to_nat max_calls) 0 [] w) as (es & w' & Hrun & Hlen & Hfs & Htr);
    [f_equal; lia|].
  exists es, w'. split; [exact Hrun|]. split; [lia|]. split; [exact Hfs|].
  split; [exact Htr|].
  unfold search_attempts, get_songs_by_genre. rewrite Hrun, Htr. f_equal.
  rewrite !search_calls_app, search_calls_failed_attempts.
  unfold search_calls at 2. cbn. lia.
Qed.

Lemma read_track_kept (t : Track) (artist song : pystr) :
  read_track t = Ok (Some (artist, song)) -> long_track t artist song.
Proof.
  unfold read_track, long_track.
  destruct (duration_ms t) as [d|] eqn:Hdur; [|discriminate].
  destruct (d <? 30 * 1000) eqn:Hd; [discriminate|].
  apply Z.ltb_ge in Hd.
  destruct (artists t) as [[|a others]|] eqn:Hart; try discriminate.
  destruct (a_name a) as [an|] eqn:Han; [|discriminate].
  destruct (t_name t) as [tn|] eqn:Htn; [|discriminate].
  intros [= <- <-]. exists d, a, others. repeat split; try done; lia.
Qed.

(** A track shorter than 30 seconds is skipped without any effect. *)
Lemma read_track_short (t : Track) (d : Z) :
  duration_ms t = Some d -> d < 30000 -> read_track t = Ok None.
Proof.
  intros Hd Hlt. unfold read_track. rewrite Hd.
  by rewrite (proj2 (Z.ltb_lt d (30 * 1000))) by lia.
Qed.

Lemma served_mono (events more : list Event) (t : Track) :
  served events t -> served (events ++ more) t.
Proof.
  intros (q & ty & l & o & r & Hin & Ht).
  exists q, ty, l, o, r. split; [apply in_or_app; by left|done].
Qed.

Lemma from_long_track_mono (events more : list Event) artist song :
  from_long_track events artist song ->
  from_long_track (events ++ more) artist song.
Proof. intros (t & Hs & Hl). exists t. split; [by apply served_mono|done]. Qed.

Lemma manifest_row_ok_mono genre (events more : list Event) r :
  manifest_row_ok genre events r -> manifest_row_ok genre (events ++ more) r.
Proof.
  intros [->|(a & s & -> & H)]; [by left|right].
  exists a, s. split; [done|by apply from_long_track_mono].
Qed.

(** The loop over the tracks of one response: it only appends, to the list
    and to the manifest, and what it appends comes from tracks of the
    response that pass the duration filter. *)
Lemma process_tracks_inv genre (P : pystr -> pystr -> Prop) tracks :
  (forall t artist song,
      In t tracks -> long_track t artist song -> P artist song) ->
  forall results w r results' w',
    process_tracks genre tracks results w = (r, results', w') ->
    trace w' = trace w /\
    exists kept rows,
      results' = results ++ kept /\
      Forall (fun s => P (artist_name s) (song_name s)) kept /\
      file_content CSV_FILE (fs w') = file_content CSV_FILE (fs w) ++ rows /\
      Forall (fun c => c = Rec header \/
                       exists artist song,
                         c = Rec [genre; song; artist] /\ P artist song) rows.
Proof.
  induction tracks as [|t rest IH]; intros HP results w r results' w' Hrun.
  - injection Hrun as <- <- <-. split; [done|].
    exists [], []. by rewrite !app_nil_r.
  - assert (HPrest : forall t0 artist song,
               In t0 rest -> long_track t0 artist song -> P artist song)
      by (intros; eapply HP; [by right|done]).
    cbn [process_tracks] in Hrun.
    destruct (read_track t) as [[[artist song]|]|e] eqn:Hread.
    + apply read_track_kept in Hread.
      assert (Hp : P artist song) by (eapply HP; [by left|done]).
      destruct (save_to_csv CSV_FILE genre song artist w)
        as [[[]|e] w1] eqn:Hsave.
      * apply save_to_csv_ok in Hsave as (Hne & Ht1 & Hf1).
        destruct (IH HPrest _ _ _ _ _ Hrun)
          as (Ht & kept & rows & -> & Hkept & Hcont & Hrows).
        split; [congruence|].
        exists ({| artist_name := artist; song_name := song |} :: kept),
          ((if path_exists CSV_FILE (fs w) then [] else [Rec header])
           ++ [Rec [genre; song; artist]] ++ rows).
        split; [by rewrite <- app_assoc|]. split; [by constructor|].
        split.
        { rewrite Hcont, Hf1, file_content_insert by done.
          by rewrite <- !app_assoc. }
        apply Forall_app. split.
        { destruct (path_exists CSV_FILE (fs w)); [constructor|].
          constructor; [by left|constructor]. }
        constructor; [|done]. right. by exists artist, song.
      * injection Hrun as <- <- <-.
        apply save_to_csv_raise in Hsave as (Ht1 & [Hf1|(Hne & _ & Hf1)]).
        { split; [done|].
          exists [{| artist_name := artist; song_name := song |}], [].
          rewrite Hf1, app_nil_r. repeat split; try done. by constructor. }
        split; [done|].
        exists [{| artist_name := artist; song_name := song |}],
          (if path_exists CSV_FILE (fs w) then [] else [Rec header]).
        rewrite Hf1, file_content_insert by done.
        repeat split; try done; [by constructor|].
        destruct (path_exists CSV_FILE (fs w)); [constructor|].
        constructor; [by left|constructor].
    + by apply (IH HPrest _ _ _ _ _ Hrun).
    + injection Hrun as <- <- <-. split; [done|].
      exists [], []. by rewrite !app_nil_r.
Qed.

Lemma served_mono_l (before events : list Event) (t : Track) :
  served events t -> served (before ++ events) t.
Proof.
  intros (q & ty & l & o & r & Hin & Ht).
  exists q, ty, l, o, r. split; [apply in_or_app; by right|done].
Qed.

Lemma from_long_track_mono_l (before events : list Event) artist song :
  from_long_track events artist song ->
  from_long_track (before ++ events) artist song.
Proof. intros (t & Hs & Hl). exists t. split; [by apply served_mono_l|done]. Qed.

Lemma manifest_row_ok_mono_l genre (before events : list Event) r :
  manifest_row_ok genre events r -> manifest_row_ok genre (before ++ events) r.
Proof.
  intros [->|(a & s & -> & H)]; [by left|right].
  exists a, s. split; [done|by apply from_long_track_mono_l].
Qed.

Lemma extends_by_refl genre results w : extends_by genre results w results w.
Proof. exists [], [], []. by rewrite !app_nil_r. Qed.

Lemma extends_by_log genre results w results' w' ev :
  extends_by genre results w results' w' ->
  extends_by genre results w results' (log ev w').
Proof.
  intros (events & kept & rows & Ht & Hr & Hc & Hk & Hm).
  exists (events ++ [ev]), kept, rows. cbn [log trace fs].
  split; [by rewrite Ht, app_assoc|]. split; [done|]. split; [done|]. split.
  - eapply List.Forall_impl; [|exact Hk]. intros s. apply from_long_track_mono.
  - eapply List.Forall_impl; [|exact Hm]. intros c. apply manifest_row_ok_mono.
Qed.

Lemma extends_by_trans genre r1 w1 r2 w2 r3 w3 :
  extends_by genre r1 w1 r2 w2 -> extends_by genre r2 w2 r3 w3 ->
  extends_by genre r1 w1 r3 w3.
Proof.
  intros (ev1 & k1 & rows1 & Ht1 & Hr1 & Hc1 & Hk1 & Hm1)
         (ev2 & k2 & rows2 & Ht2 & Hr2 & Hc2 & Hk2 & Hm2).
  exists (ev1 ++ ev2), (k1 ++ k2), (rows1 ++ rows2).
  split; [by rewrite Ht2, Ht1, app_assoc|].
  split; [by rewrite Hr2, Hr1, app_assoc|].
  split; [by rewrite Hc2, Hc1, app_assoc|].
  split; apply Forall_app; split.
  - eapply List.Forall_impl; [|exact Hk1]. intros s. apply from_long_track_mono.
  - eapply List.Forall_impl; [|exact Hk2]. intros s. apply from_long_track_mono_l.
  - eapply List.Forall_impl; [|exact Hm1]. intros c. apply manifest_row_ok_mono.
  - eapply List.Forall_impl; [|exact Hm2]. intros c. apply manifest_row_ok_mono_l.
Qed.

Lemma try_fetch_extends env genre offset results w r results' w' :
  try_fetch env genre offset results w = (r, results', w') ->
  extends_by genre results w results' w'.
Proof.
  unfold try_fetch.
  set (q := py "genre:" ++ genre).
  destruct (sp_search env w q (py "track") 50 offset) as [response|e] eqn:Hs.
  - set (ev := EvSearch q (py "track") 50 offset (Ok response)).
    destruct (response_items response) as [|t0 rest] eqn:Hitems.
    + intros [= <- <- <-]. unfold print. do 2 apply extends_by_log.
      apply extends_by_refl.
    + destruct (process_tracks genre (t0 :: rest) results (log ev w))
        as [[r1 results1] w2] eqn:Hp.
      apply (process_tracks_inv genre (from_long_track [ev])) in Hp
        as (Ht & kept & rows & Hr & Hk & Hc & Hm).
      * assert (Hbase : extends_by genre results w results1 w2).
        { exists [ev], kept, rows. rewrite Ht. cbn [log trace].
          repeat split; done. }
        destruct r1 as [[]|e]; intros [= <- <- <-]; [|done].
        by apply extends_by_log.
      * intros t artist song Hin Hl. exists t. split; [|done].
        exists q, (py "track"), 50, offset, response.
        split; [by left|by rewrite Hitems].
  - intros [= <- <- <-]. apply extends_by_log, extends_by_refl.
Qed.

Lemma retry_loop_extends env genre offset max_calls fuel :
  forall retries results w results' w',
    retry_loop env genre offset max_calls fuel retries results w
    = Some (results', w') ->
    extends_by genre results w results' w'.
Proof.
  induction fuel as [|fuel IH]; intros retries results w results' w';
    cbn [retry_loop]; destruct (retries <? max_calls); try discriminate;
    try (intros [= <- <-]; apply extends_by_log, extends_by_refl).
  destruct (try_fetch env genre offset results w) as [[r results1] w1] eqn:Hf.
  apply try_fetch_extends in Hf.
  destruct r as [[]|e].
  - by intros [= <- <-].
  - intros Hrun. apply IH in Hrun.
    eapply extends_by_trans; [|exact Hrun].
    unfold print. by do 2 apply extends_by_log.
Qed.

(** Tracks below the floor are invisible to the loop over a response. *)
Lemma process_tracks_skips_short genre (tracks : list Track) :
  forall results w,
    process_tracks genre tracks results w
    = process_tracks genre (List.filter (fun t => negb (is_short t)) tracks)
        results w.
Proof.
  induction tracks as [|t rest IH]; intros results w; [reflexivity|].
  cbn [List.filter]. unfold is_short at 1.
  destruct (duration_ms t) as [d|] eqn:Hd.
  - destruct (d <? 30000) eqn:Hlt; cbn [negb].
    + apply Z.ltb_lt in Hlt. cbn [process_tracks].
      rewrite (read_track_short t d Hd Hlt). apply IH.
    + cbn [process_tracks]. destruct (read_track t) as [[[artist song]|]|e];
        [|apply IH|reflexivity].
      destruct (save_to_csv CSV_FILE genre song artist w) as [[[]|e] w1];
        [apply IH|reflexivity].
  - cbn [negb process_tracks]. unfold read_track. by rewrite Hd.
Qed.

(** C6: the call returns, and every entry of the list it returns, like every
    row it appends to the manifest below a possible header, comes from a
    track that the catalog served during the call with a duration of at
    least 30000 ms; and the loop over a response does exactly what it does
    on the response without its tracks shorter than 30000 ms. *)
Theorem get_songs_by_genre_duration_filter env genre offset max_calls w :
  (exists results w' events rows,
      get_songs_by_genre env genre offset max_calls w = Some (results, w') /\
      trace w' = trace w ++ events /\
      file_content CSV_FILE (fs w') = file_content CSV_FILE (fs w) ++ rows /\
      Forall (fun s => from_long_track events (artist_name s) (song_name s))
             results /\
      Forall (manifest_row_ok genre events) rows) /\
  (forall tracks results w0,
      process_tracks genre tracks results w0
      = process_tracks genre (List.filter (fun t => negb (is_short t)) tracks)
          results w0).
Proof.
  split; [|intros; apply process_tracks_skips_short].
  destruct (get_songs_by_genre_total env genre offset max_calls w)
    as [[results w'] Hrun].
  destruct (retry_loop_extends _ _ _ _ _ _ _ _ _ _ Hrun)
    as (events & kept & rows & Ht & Hr & Hc & Hk & Hm).
  cbn [app] in Hr. subst kept.
  exists results, w', events, rows. by repeat split.
Qed.

(** ** convert_to_wav *)

(** C4, as the code has it: [convert_to_wav] returns [None] whatever the
    process does; the outcome shows only in the log, where a missing binary
    or a non-zero return code leaves an error line after the invocation and
    a zero return code leaves none. *)
Theorem convert_to_wav_returns_none env input_path output_path w :
  fst (convert_to_wav env input_path output_path w) = PyNone /\
  trace (snd (convert_to_wav env input_path output_path w))
  = trace w
    ++ EvRun (ffmpeg_args input_path output_path)
       :: convert_log input_path
            (subprocess_run env w (ffmpeg_args input_path output_path)).
Proof.
  unfold convert_to_wav, convert_log.
  destruct (subprocess_run env w (ffmpeg_args input_path output_path))
    as [returncode output|].
  - destruct returncode; destruct output; cbn; by rewrite <- ?app_assoc.
  - cbn. by rewrite <- app_assoc.
Qed.

(** C4 fails as stated: the value returned after a zero return code and the
    value returned after a non-zero one cannot be told apart. *)
Lemma convert_to_wav_result_indistinguishable :
  subprocess_run env_ffmpeg_ok w_empty
    (ffmpeg_args (temp_file_path ascii_isalnum jazz_path so_what)
       (wav_file_path ascii_isalnum jazz_path so_what))
  = Exited 0 (Some (py "wav data")) /\
  subprocess_run env_ffmpeg_fails w_empty
    (ffmpeg_args (temp_file_path ascii_isalnum jazz_path so_what)
       (wav_file_path ascii_isalnum jazz_path so_what))
  = Exited 1 None /\
  ~ exists is_success : PyVal -> bool,
      is_success (fst (convert_to_wav env_ffmpeg_ok
                         (temp_file_path ascii_isalnum jazz_path so_what)
                         (wav_file_path ascii_isalnum jazz_path so_what)
                         w_empty)) = true /\
      is_success (fst (convert_to_wav env_ffmpeg_fails
                         (temp_file_path ascii_isalnum jazz_path so_what)
                         (wav_file_path ascii_isalnum jazz_path so_what)
                         w_empty)) = false.
Proof.
  split; [reflexivity|]. split; [reflexivity|].
  intros (is_success & Hok & Hfail).
  vm_compute in Hok, Hfail. congruence.
Qed.

(** ** download_youtube_audio *)

Lemma download_songs_app env isalnum genre_path (l1 l2 : list Song) :
  forall w,
    download_songs env isalnum genre_path (l1 ++ l2) w
    = download_songs env isalnum genre_path l2
        (download_songs env isalnum genre_path l1 w).
Proof. induction l1 as [|s l1 IH]; intros w; [reflexivity|apply IH]. Qed.

(** C2: when the downloader reaches a candidate whose [.wav] file exists, the
    iteration only prints that the file exists: the file system is left as
    it is, and no search, download or conversion is recorded; the batch goes
    on with the next candidate. *)
Theorem download_skips_existing env isalnum genre_path
    (before after : list Song) (song : Song) (w0 : World) :
  let w := download_songs env isalnum genre_path before w0 in
  let wav := wav_file_path isalnum genre_path song in
  path_exists wav (fs w) = true ->
  download_one env isalnum genre_path song w = print (MsgExists wav) w /\
  fs (download_one env isalnum genre_path song w) = fs w /\
  trace (download_one env isalnum genre_path song w)
  = trace w ++ [EvPrint (MsgExists wav)] /\
  download_songs env isalnum genre_path (before ++ song :: after) w0
  = download_songs env isalnum genre_path after (print (MsgExists wav) w).
Proof.
  intros w wav Hex.
  assert (Hone : download_one env isalnum genre_path song w
                 = print (MsgExists wav) w).
  { unfold download_one. fold (sanitized_name isalnum song).
    fold (wav_file_path isalnum genre_path song). fold wav. by rewrite Hex. }
  rewrite Hone. repeat split.
  rewrite download_songs_app. cbn [download_songs]. fold w. by rewrite Hone.
Qed.

Lemma node_at_div (p : Path) (name : pystr) (f : gmap Path Node) :
  node_at (path_div p name) f = f !! path_div p name.
Proof. unfold path_div. by destruct p. Qed.

Lemma path_exists_div (p : Path) (name : pystr) (f : gmap Path Node) :
  path_exists (path_div p name) f
  = match f !! path_div p name with Some _ => true | None => false end.
Proof. unfold path_exists. by rewrite node_at_div. Qed.

Lemma temp_wav_distinct isalnum genre_path song :
  temp_file_path isalnum genre_path song <> wav_file_path isalnum genre_path song.
Proof.
  unfold temp_file_path, wav_file_path, path_div. intros H.
  apply app_inv_head in H. injection H as H. apply app_inv_head in H.
  discriminate H.
Qed.

(** Converting leaves every path but the output as it was, and records the
    invocation followed by no further invocation. *)
Lemma convert_to_wav_effect env input_path output_path w :
  let w' := snd (convert_to_wav env input_path output_path w) in
  (forall q : Path, q <> output_path -> fs w' !! q = fs w !! q) /\
  exists tail,
    trace w' = trace w ++ EvRun (ffmpeg_args input_path output_path) :: tail.
Proof.
  unfold convert_to_wav.
  destruct (subprocess_run env w (ffmpeg_args input_path output_path))
    as [returncode [data|]|]; [destruct (returncode =? 0)..|]; cbn; split;
    try done;
    try (intros q Hq; unfold write_blob; by rewrite lookup_insert_ne);
    rewrite <- ?app_assoc; eauto.
Qed.

(** The three ways through the [try] of one iteration: the download is never
    started, it raises, or it completes and conversion and removal follow. *)
Lemma try_download_cases env isalnum genre_path song w :
  let wav := wav_file_path isalnum genre_path song in
  let m4a := temp_file_path isalnum genre_path song in
  let out := try_download env genre_path (song_name song) (artist_name song)
               (sanitized_name isalnum song) wav w in
  exists events,
    trace (snd out) = trace w ++ events /\
    ((fs (snd out) = fs w /\
      Forall (fun ev => is_run ev = false) events /\
      forall data, ~ download_completes env song w data)
     \/
     ((exists e, fst out = Raise e) /\
      In (EvDownload genre_path (sanitized_name isalnum song ++ py ".m4a"))
         events /\
      Forall (fun ev => is_run ev = false) events /\
      forall data, ~ download_completes env song w data)
     \/
     (In (EvRun (ffmpeg_args m4a wav)) events /\
      fs (snd out) !! m4a = None)).
Proof.
  intros wav m4a out. subst out. unfold try_download.
  fold (temp_file_path isalnum genre_path song). fold m4a.
  unfold download_completes.
  destruct (yt_search env _ _) as [[|yt others]|e] eqn:Hsearch.
  - eexists. cbn [snd fst trace print log fs]. rewrite <- !app_assoc.
    split; [reflexivity|]. left. split; [done|]. split; [by repeat constructor|].
    intros data (? & ? & ? & ? & _). discriminate.
  - destruct (get_audio_only yt) as [[stream|]|e] eqn:Hstream.
    + destruct (download stream) as [data|e [data|]] eqn:Hdl.
      * set (w6 := print (MsgConverting wav) _).
        destruct (convert_to_wav_effect env m4a wav w6) as [Hfs [tail Htr]].
        set (w7 := snd (convert_to_wav env m4a wav w6)) in *.
        assert (Hm : fs w7 !! m4a = Some (File [Blob data])).
        { rewrite Hfs by apply temp_wav_distinct. subst w6.
          cbn [fs print log set_fs]. apply lookup_insert_eq. }
        assert (Hn : node_at m4a (fs w7) = Some (File [Blob data])).
        { unfold m4a, temp_file_path. rewrite node_at_div. exact Hm. }
        unfold unlink_missing_ok. rewrite Hn.
        eexists. cbn [snd fst trace print log set_fs fs]. rewrite Htr.
        subst w6. cbn [trace print log set_fs]. rewrite <- !app_assoc.
        split; [reflexivity|]. right; right. split.
        { cbn. auto 10. }
        apply lookup_delete_eq.
      * eexists. cbn [snd fst trace print log set_fs fs]. rewrite <- !app_assoc.
        split; [reflexivity|]. right; left. split; [eauto|].
        split; [cbn; auto 10|]. split; [by repeat constructor|].
        intros data' (yt' & others' & stream' & H1 & H2 & H3).
        injection H1 as <- <-. congruence.
      * eexists. cbn [snd fst trace print log set_fs fs]. rewrite <- !app_assoc.
        split; [reflexivity|]. right; left. split; [eauto|].
        split; [cbn; auto 10|]. split; [by repeat constructor|].
        intros data' (yt' & others' & stream' & H1 & H2 & H3).
        injection H1 as <- <-. congruence.
    + eexists. cbn [snd fst trace print log set_fs fs]. rewrite <- !app_assoc.
      split; [reflexivity|]. left. split; [done|].
      split; [by repeat constructor|].
      intros data' (yt' & others' & stream' & H1 & H2 & H3).
      injection H1 as <- <-. congruence.
    + eexists. cbn [snd fst trace print log set_fs fs]. rewrite <- !app_assoc.
      split; [reflexivity|]. left. split; [done|].
      split; [by repeat constructor|].
      intros data' (yt' & others' & stream' & H1 & H2 & H3).
      injection H1 as <- <-. congruence.
  - eexists. cbn [snd fst trace print log set_fs fs]. rewrite <- !app_assoc.
    split; [reflexivity|]. left. split; [done|].
    split; [by repeat constructor|].
    intros data' (yt' & others' & stream' & H1 & _). discriminate.
Qed.

(** C3: one iteration of the downloader.  When the download completes, the
    conversion is invoked and the staged [.m4a] file is gone afterwards,
    whatever the conversion did.  Conversely, when the staged file is there
    after the iteration, the conversion was not invoked; and when it was not
    there before, it is the partial file of a download that raised. *)
Theorem download_removes_staged_file env isalnum genre_path song w :
  let wav := wav_file_path isalnum genre_path song in
  let m4a := temp_file_path isalnum genre_path song in
  let w' := download_one env isalnum genre_path song w in
  exists events,
    trace w' = trace w ++ events /\
    (forall data,
        path_exists wav (fs w) = false ->
        download_completes env song w data ->
        In (EvRun (ffmpeg_args m4a wav)) events /\
        path_exists m4a (fs w') = false) /\
    (path_exists m4a (fs w') = true ->
     Forall (fun ev => is_run ev = false) events /\
     (path_exists m4a (fs w) = false ->
      In (EvDownload genre_path (sanitized_name isalnum song ++ py ".m4a"))
         events /\
      exists e,
        last events
        = Some (EvPrint (MsgProcessingError (song_name song)
                           (artist_name song) e)))).
Proof.
  intros wav m4a w'. subst w'. unfold download_one.
  fold (sanitized_name isalnum song). fold (wav_file_path isalnum genre_path song).
  fold wav.
  assert (Hex : forall f : gmap Path Node,
             path_exists m4a f
             = match f !! m4a with Some _ => true | None => false end)
    by (intros f; apply path_exists_div).
  destruct (path_exists wav (fs w)) eqn:Hwav.
  { exists [EvPrint (MsgExists wav)]. split; [done|]. split; [done|].
    cbn [print log fs]. intros Hm. split; [by repeat constructor|].
    intros Hm'. congruence. }
  destruct (try_download_cases env isalnum genre_path song w)
    as (events & Htr & Hcases).
  fold wav m4a in Htr, Hcases.
  destruct (try_download env genre_path (song_name song) (artist_name song)
              (sanitized_name isalnum song) wav w) as [r w1].
  cbn [fst snd] in Htr, Hcases.
  destruct r as [[]|e].
  - exists events. split; [done|].
    destruct Hcases as [(Hfs & Hrun & Hnc)|[((e & He) & _)|(Hin & Hgone)]];
      [|discriminate He|].
    + split; [intros data _ Hc; by destruct (Hnc data)|].
      intros Hm. split; [done|]. rewrite Hfs in Hm. congruence.
    + split; [intros data _ _; split; [done|by rewrite Hex, Hgone]|].
      rewrite Hex, Hgone. discriminate.
  - exists (events ++ [EvPrint (MsgProcessingError (song_name song)
                                  (artist_name song) e)]).
    cbn [print log trace fs]. split; [by rewrite Htr, app_assoc|].
    destruct Hcases as [(Hfs & Hrun & Hnc)|[(_ & Hdl & Hrun & Hnc)|(Hin & Hgone)]].
    + split; [intros data _ Hc; by destruct (Hnc data)|].
      intros Hm. split; [apply Forall_app; split; [done|by repeat constructor]|].
      rewrite Hfs in Hm. congruence.
    + split; [intros data _ Hc; by destruct (Hnc data)|].
      intros Hm. split; [apply Forall_app; split; [done|by repeat constructor]|].
      intros _. split; [apply in_or_app; by left|].
      exists e. apply last_snoc.
    + split; [intros data _ _; split;
              [apply in_or_app; by left|by rewrite Hex, Hgone]|].
      rewrite Hex, Hgone. discriminate.
Qed.

(** ** build *)



Lemma len_cons_pos {A} (x : A) (l : list A) : 1 <= len (x :: l).
Proof. unfold len. cbn [length]. lia. Qed.



(** * The statements at concrete inputs *)

Example sanitize_filename_acdc :
  sanitize_filename ascii_isalnum (py "Back In Black-AC/DC")
  = py "Back In Black-AC_DC".
Proof. reflexivity. Qed.

(** A page of three tracks gives a batch of the two long ones, two rows under
    a new header, and one search request. *)
Example get_songs_by_genre_one_page :
  match get_songs_by_genre env_one_page (py "jazz") 0 5 w_ready with
  | Some (results, w') =>
      results = [ {| artist_name := py "Miles Davis"; song_name := py "So What" |};
                  {| artist_name := py "Miles Davis";
                     song_name := py "Freddie Freeloader" |} ] /\
      file_content CSV_FILE (fs w')
      = [ Rec header;
          Rec [py "jazz"; py "So What"; py "Miles Davis"];
          Rec [py "jazz"; py "Freddie Freeloader"; py "Miles Davis"] ] /\
      search_calls (trace w') = 1%nat
  | None => False
  end.
Proof. vm_compute. repeat split. Qed.

(** In a directory without [dataset/top_genres] the manifest cannot be
    opened: each attempt appends its first long track to the list, raises in
    [save_to_csv] and is retried; the call returns what was accumulated and
    the manifest is still absent. *)
Example get_songs_by_genre_fresh_directory :
  match get_songs_by_genre env_one_page (py "jazz") 0 2 w_empty with
  | Some (results, w') =>
      results = [so_what; so_what] /\
      path_exists CSV_FILE (fs w') = false /\
      search_calls (trace w') = 2%nat
  | None => False
  end.
Proof. vm_compute. repeat split. Qed.

(** The driver on that catalog with a target of 2: one batch, the count
    reaches 2 and the offset 50. *)
Example build_genre_one_page :
  match build_genre env_one_page ascii_isalnum (py "jazz") 2 5 w_ready with
  | Some (Ok (offset, total, w')) =>
      offset = 50 /\ total = 2 /\
      path_exists (wav_file_path ascii_isalnum jazz_path so_what) (fs w') = true /\
      path_exists (temp_file_path ascii_isalnum jazz_path so_what) (fs w') = false
  | _ => False
  end.
Proof. vm_compute. repeat split. Qed.

(** The count advances by the batch size even when every conversion fails
    and no [.wav] file is produced. *)
Example build_genre_counts_fetched_not_downloaded :
  match build_genre
          {| sp_search := sp_search env_one_page;
             yt_search := yt_search env_one_page;
             subprocess_run := fun _ _ => BinaryMissing |}
          ascii_isalnum (py "jazz") 2 5 w_ready with
  | Some (Ok (offset, total, w')) =>
      offset = 50 /\ total = 2 /\
      path_exists (wav_file_path ascii_isalnum jazz_path so_what) (fs w') = false
  | _ => False
  end.
Proof. vm_compute. repeat split. Qed.

Lemma env_catalog_down_always_raises : always_raises env_catalog_down.
Proof. intros w q type_ limit offset. eexists. reflexivity. Qed.

(** C1 at three retries on a catalog that is down. *)
Lemma get_songs_by_genre_retry_bound_witness :
  always_raises env_catalog_down /\
  exists es w',
    get_songs_by_genre env_catalog_down (py "jazz") 0 3 w_empty = Some ([], w') /\
    Z.of_nat (length es) = Z.max 0 3 /\
    fs w' = fs w_empty /\
    trace w'
    = trace w_empty ++ failed_attempts (py "jazz") 0 3 1 es
      ++ [EvPrint (MsgMaxRetries (py "jazz") 0)] /\
    search_attempts env_catalog_down (py "jazz") 0 3 w_empty
    = Some (Z.to_nat (Z.max 0 3)).
Proof.
  split.
  - intros w q type_ limit offset. eexists. reflexivity.
  - apply (get_songs_by_genre_retry_bound env_catalog_down (py "jazz") 0 3
             w_empty).
    intros w q type_ limit offset. eexists. reflexivity.
Defined.

(** C1 fails as stated for a negative bound: with [max_calls = -1] and a
    catalog that is down, the call makes no attempt at all, not -1. *)
Lemma get_songs_by_genre_negative_bound :
  search_attempts env_catalog_down (py "jazz") 0 (-1) w_empty = Some 0%nat /\
  ~ (always_raises env_catalog_down ->
     exists n : nat,
       search_attempts env_catalog_down (py "jazz") 0 (-1) w_empty = Some n /\
       Z.of_nat n = -1).
Proof.
  split; [reflexivity|].
  intros H. destruct (H env_catalog_down_always_raises) as (n & Hn & Hneg).
  vm_compute in Hn. injection Hn as <-. discriminate Hneg.
Qed.

(** C10 at [max_calls = 0] and at a negative bound. *)
Lemma get_songs_by_genre_no_calls_witness :
  -2 <= 0 /\
  exists w',
    get_songs_by_genre env_one_page (py "jazz") 0 (-2) w_ready = Some ([], w') /\
    fs w' = fs w_ready /\
    trace w' = trace w_ready ++ [EvPrint (MsgMaxRetries (py "jazz") 0)] /\
    search_attempts env_one_page (py "jazz") 0 (-2) w_ready = Some 0%nat.
Proof.
  split; [lia|].
  apply (get_songs_by_genre_no_calls env_one_page (py "jazz") 0 (-2) w_ready).
  lia.
Defined.

(** C2 on a jazz directory that already holds the [.wav] of the song. *)
Lemma download_skips_existing_witness :
  path_exists (wav_file_path ascii_isalnum jazz_path so_what)
    (fs (download_songs env_one_page ascii_isalnum jazz_path [] w_have_so_what))
  = true /\
  download_one env_one_page ascii_isalnum jazz_path so_what w_have_so_what
  = print (MsgExists (wav_file_path ascii_isalnum jazz_path so_what))
      w_have_so_what /\
  fs (download_one env_one_page ascii_isalnum jazz_path so_what w_have_so_what)
  = fs w_have_so_what.
Proof.
  split; [vm_compute; reflexivity|].
  destruct (download_skips_existing env_one_page ascii_isalnum jazz_path
              [] [] so_what w_have_so_what) as (Hone & Hfs & _ & _).
  - vm_compute; reflexivity.
  - split; [exact Hone|exact Hfs].
Defined.

(** C3 on a download that completes and a conversion that fails. *)
Lemma download_removes_staged_file_witness :
  path_exists (wav_file_path ascii_isalnum jazz_path so_what) (fs w_ready)
  = false /\
  download_completes env_ffmpeg_fails so_what w_ready (py "m4a data") /\
  exists events,
    trace (download_one env_ffmpeg_fails ascii_isalnum jazz_path so_what w_ready)
    = trace w_ready ++ events /\
    In (EvRun (ffmpeg_args (temp_file_path ascii_isalnum jazz_path so_what)
                 (wav_file_path ascii_isalnum jazz_path so_what))) events /\
    path_exists (temp_file_path ascii_isalnum jazz_path so_what)
      (fs (download_one env_ffmpeg_fails ascii_isalnum jazz_path so_what w_ready))
    = false.
Proof.
  assert (Hwav : path_exists (wav_file_path ascii_isalnum jazz_path so_what)
                   (fs w_ready) = false) by (vm_compute; reflexivity).
  assert (Hdl : download_completes env_ffmpeg_fails so_what w_ready
                  (py "m4a data")).
  { eexists _, _, _. repeat split; reflexivity. }
  split; [exact Hwav|]. split; [exact Hdl|].
  destruct (download_removes_staged_file env_ffmpeg_fails ascii_isalnum
              jazz_path so_what w_ready) as (events & Htr & Hdone & _).
  exists events. split; [exact Htr|].
  exact (Hdone (py "m4a data") Hwav Hdl).
Defined.



(** C7 on two calls against a manifest that does not exist yet. *)
Lemma save_to_csv_append_only_witness :
  path_accepted CSV_FILE = true /\
  writable CSV_FILE (fs w_ready) = true /\
  Forall call_encodable
    [ (py "jazz", py "So What", py "Miles Davis");
      (py "jazz", py "Freddie Freeloader", py "Miles Davis") ] /\
  exists w',
    save_all CSV_FILE
      [ (py "jazz", py "So What", py "Miles Davis");
        (py "jazz", py "Freddie Freeloader", py "Miles Davis") ] w_ready
    = (Ok tt, w') /\
    file_content CSV_FILE (fs w')
    = [ Rec header;
        Rec [py "jazz"; py "So What"; py "Miles Davis"];
        Rec [py "jazz"; py "Freddie Freeloader"; py "Miles Davis"] ].
Proof.
  assert (Henc : Forall call_encodable
                   [ (py "jazz", py "So What", py "Miles Davis");
                     (py "jazz", py "Freddie Freeloader", py "Miles Davis") ]).
  { repeat (constructor; [vm_compute; by repeat split|]). constructor. }
  split; [vm_compute; reflexivity|].
  split; [vm_compute; reflexivity|]. split; [exact Henc|].
  destruct (save_to_csv_append_only CSV_FILE
              [ (py "jazz", py "So What", py "Miles Davis");
                (py "jazz", py "Freddie Freeloader", py "Miles Davis") ]
              w_ready) as (Hok & Happend & _).
  destruct Hok as [w' Hw'];
    [vm_compute; reflexivity|vm_compute; reflexivity|exact Henc|].
  exists w'. split; [exact Hw'|].
  destruct (Happend w' Hw') as (_ & Hcontent & _).
  rewrite Hcontent. vm_compute. reflexivity.
Defined.

(** C9 on a name with a slash. *)
Lemma sanitize_filename_in_place_witness :
  ascii_isalnum (N_of_ascii "/") || char_in (N_of_ascii "/") (py " -_") = false /\
  length (sanitize_filename ascii_isalnum (py "AC")) = length (py "AC") /\
  py "AC" ++ N_of_ascii "/" :: py "DC" <> py "AC" ++ N_of_ascii "_" :: py "DC" /\
  sanitize_filename ascii_isalnum (py "AC" ++ N_of_ascii "/" :: py "DC")
  = sanitize_filename ascii_isalnum (py "AC" ++ N_of_ascii "_" :: py "DC").
Proof.
  split; [vm_compute; reflexivity|].
  destruct (sanitize_filename_in_place ascii_isalnum (py "AC"))
    as (Hlen & _ & Hcollide).
  split; [exact Hlen|].
  apply (Hcollide (N_of_ascii "/") (py "DC")). vm_compute; reflexivity.
Defined.


(** * Further properties *)

(** ** Directories *)

Lemma adds_dirs_refl (places : list Path) (f : gmap Path Node) : adds_dirs places f f.
Proof. intros p. by left. Qed.

Lemma adds_dirs_trans (places1 places2 : list Path) (f f1 f2 : gmap Path Node) :
  adds_dirs places1 f f1 -> adds_dirs places2 f1 f2 ->
  adds_dirs (places1 ++ places2) f f2.
Proof.
  intros H1 H2 p.
  destruct (H2 p) as [E2|(N2 & D2 & I2)], (H1 p) as [E1|(N1 & D1 & I1)].
  - left. congruence.
  - right. rewrite E2. split; [done|]. split; [done|]. apply in_or_app. by left.
  - right. rewrite <- E1. split; [done|]. split; [done|]. apply in_or_app. by right.
  - congruence.
Qed.

Lemma adds_dirs_incl (places places' : list Path) (f f' : gmap Path Node) :
  incl places places' -> adds_dirs places f f' -> adds_dirs places' f f'.
Proof.
  intros Hincl H p. destruct (H p) as [E|(N & D & I)]; [by left|right].
  split; [done|]. split; [done|]. by apply Hincl.
Qed.

Lemma adds_dirs_insert (q : Path) (f : gmap Path Node) :
  f !! q = None -> adds_dirs [q] f (<[q := Dir]> f).
Proof.
  intros Hq p. destruct (decide (q = p)) as [<-|Hne].
  - right. rewrite lookup_insert_eq. split; [done|]. split; [done|]. by left.
  - left. by apply lookup_insert_ne.
Qed.

Lemma adds_dirs_is_directory (places : list Path) (f f' : gmap Path Node) (p : Path) :
  adds_dirs places f f' -> is_directory f p -> is_directory f' p.
Proof.
  unfold is_directory. intros H Hd.
  destruct (H p) as [E|(N & _ & _)]; congruence.
Qed.

Lemma adds_dirs_not_a_file (places : list Path) (f f' : gmap Path Node) (p : Path) :
  adds_dirs places f f' -> not_a_file f p -> not_a_file f' p.
Proof.
  unfold not_a_file. intros H Hn.
  destruct (H p) as [E|(_ & D & _)]; [by rewrite E|by right].
Qed.

Lemma adds_dirs_not_a_file_inv (places : list Path) (f f' : gmap Path Node) (p : Path) :
  adds_dirs places f f' -> is_directory f' p -> not_a_file f p.
Proof.
  unfold not_a_file, is_directory. intros H Hd.
  destruct (H p) as [E|(N & _ & _)]; [right; congruence|by left].
Qed.

Lemma mkdir_from_ok (rest : list pystr) :
  forall (base : Path) (f f' : gmap Path Node),
    mkdir_from base rest f = Ok f' ->
    adds_dirs (prefixes_from base rest) f f' /\
    Forall (is_directory f') (prefixes_from base rest).
Proof.
  induction rest as [|c rest IH]; intros base f f' Hrun; cbn in Hrun |- *.
  - injection Hrun as <-. split; [apply adds_dirs_refl|constructor].
  - destruct (f !! (base ++ [c])) as [[|content]|] eqn:Hq; [| discriminate |].
    + destruct (IH _ _ _ Hrun) as (Hadd & Hdirs). split.
      * eapply adds_dirs_incl; [|exact Hadd]. intros p Hp. by right.
      * constructor; [|done]. by eapply adds_dirs_is_directory.
    + destruct (IH _ _ _ Hrun) as (Hadd & Hdirs). split.
      * apply (adds_dirs_trans [base ++ [c]]
                 (prefixes_from (base ++ [c]) rest) f
                 (<[base ++ [c] := Dir]> f) f');
          [by apply adds_dirs_insert|done].
      * constructor; [|done]. eapply adds_dirs_is_directory; [exact Hadd|].
        apply lookup_insert_eq.
Qed.

Lemma mkdir_from_noop (rest : list pystr) :
  forall (base : Path) (f : gmap Path Node),
    Forall (is_directory f) (prefixes_from base rest) ->
    mkdir_from base rest f = Ok f.
Proof.
  induction rest as [|c rest IH]; intros base f Hdirs; cbn in Hdirs |- *;
    [done|].
  apply Forall_cons in Hdirs as [Hq Hrest]. rewrite Hq. by apply IH.
Qed.

Lemma mkdir_from_succeeds (rest : list pystr) :
  forall (base : Path) (f : gmap Path Node),
    Forall (not_a_file f) (prefixes_from base rest) ->
    exists f', mkdir_from base rest f = Ok f'.
Proof.
  induction rest as [|c rest IH]; intros base f Hok; cbn in Hok |- *;
    [eauto|].
  apply Forall_cons in Hok as [[Hq|Hq] Hrest]; rewrite Hq.
  - apply IH. eapply List.Forall_impl; [|exact Hrest].
    intros p. apply (adds_dirs_not_a_file [base ++ [c]]).
    by apply adds_dirs_insert.
  - by apply IH.
Qed.

Lemma parent_div (p : Path) (name : pystr) : parent (path_div p name) = p.
Proof. apply removelast_last. Qed.

Lemma mkdir_exist_ok_ok (base : Path) (name : pystr) (f f' : gmap Path Node) :
  mkdir_exist_ok (path_div base name) f = Ok f' ->
  adds_dirs [path_div base name] f f' /\ is_directory f' (path_div base name).
Proof.
  unfold mkdir_exist_ok. rewrite node_at_div, parent_div.
  destruct (f !! path_div base name) as [[|content]|] eqn:Hp; [|discriminate|].
  - intros [= <-]. split; [apply adds_dirs_refl|done].
  - destruct (node_at base f) as [[|content]|]; try discriminate.
    intros [= <-]. split; [by apply adds_dirs_insert|apply lookup_insert_eq].
Qed.

Lemma mkdir_exist_ok_noop (base : Path) (name : pystr) (f : gmap Path Node) :
  is_directory f (path_div base name) ->
  mkdir_exist_ok (path_div base name) f = Ok f.
Proof. intros H. unfold mkdir_exist_ok. by rewrite node_at_div, H. Qed.

Lemma mkdir_exist_ok_succeeds (base : Path) (name : pystr)
    (f : gmap Path Node) :
  node_at base f = Some Dir -> not_a_file f (path_div base name) ->
  exists f', mkdir_exist_ok (path_div base name) f = Ok f'.
Proof.
  intros Hb [Hp|Hp]; unfold mkdir_exist_ok;
    rewrite node_at_div, Hp, ?parent_div, ?Hb; eauto.
Qed.

(** ** setup_structure *)

Lemma SUB_GENRES_of_GENRES :
  Forall (fun genre => SUB_GENRES !! genre = Some []) GENRES.
Proof. repeat constructor. Qed.

Lemma setup_genres_ok (genres : list pystr) :
  Forall (fun genre => SUB_GENRES !! genre = Some []) genres ->
  forall f f' : gmap Path Node,
    setup_genres genres f = Ok f' ->
    adds_dirs (genre_dirs genres) f f' /\
    Forall (is_directory f') (genre_dirs genres).
Proof.
  induction 1 as [|genre genres Hsub _ IH]; intros f f' Hrun;
    cbn [setup_genres genre_dirs flat_map] in Hrun |- *.
  - injection Hrun as <-. split; [apply adds_dirs_refl|constructor].
  - destruct (mkdir_exist_ok (path_div TOP_GENRES_PATH genre) f)
      as [f1|e] eqn:H1; [|discriminate].
    destruct (mkdir_exist_ok (path_div SUB_GENRES_PATH genre) f1)
      as [f2|e] eqn:H2; [|discriminate].
    rewrite Hsub in Hrun. cbn [setup_subgenres] in Hrun.
    apply mkdir_exist_ok_ok in H1 as (A1 & D1), H2 as (A2 & D2).
    destruct (IH _ _ Hrun) as (A3 & D3).
    pose proof (adds_dirs_trans _ _ _ _ _ A1 A2) as A12.
    pose proof (adds_dirs_trans _ _ _ _ _ A12 A3) as A123.
    split; [exact A123|].
    cbn [app]. constructor; [|constructor; [|exact D3]].
    + apply (adds_dirs_is_directory _ _ _ _ A3).
      apply (adds_dirs_is_directory _ _ _ _ A2 D1).
    + apply (adds_dirs_is_directory _ _ _ _ A3 D2).
Qed.

Lemma setup_genres_noop (genres : list pystr) (f : gmap Path Node) :
  Forall (fun genre => SUB_GENRES !! genre = Some []) genres ->
  Forall (is_directory f) (genre_dirs genres) ->
  setup_genres genres f = Ok f.
Proof.
  induction 1 as [|genre genres Hsub _ IH]; intros Hdirs;
    cbn [setup_genres genre_dirs flat_map] in Hdirs |- *; [done|].
  apply Forall_cons in Hdirs as [D1 Hdirs].
  apply Forall_cons in Hdirs as [D2 Hdirs].
  rewrite !mkdir_exist_ok_noop, Hsub by done. cbn [setup_subgenres].
  by apply IH.
Qed.

Lemma setup_genres_succeeds (genres : list pystr) :
  Forall (fun genre => SUB_GENRES !! genre = Some []) genres ->
  forall f : gmap Path Node,
    is_directory f TOP_GENRES_PATH -> is_directory f SUB_GENRES_PATH ->
    Forall (not_a_file f) (genre_dirs genres) ->
    exists f', setup_genres genres f = Ok f'.
Proof.
  induction 1 as [|genre genres Hsub _ IH]; intros f Htop Hsubdir Hok;
    cbn [setup_genres genre_dirs flat_map] in Hok |- *; [eauto|].
  apply Forall_cons in Hok as [N1 Hok].
  apply Forall_cons in Hok as [N2 Hok].
  destruct (mkdir_exist_ok_succeeds TOP_GENRES_PATH genre f Htop N1)
    as [f1 H1].
  rewrite H1. apply mkdir_exist_ok_ok in H1 as (A1 & _).
  destruct (mkdir_exist_ok_succeeds SUB_GENRES_PATH genre f1) as [f2 H2].
  { apply (adds_dirs_is_directory _ _ _ _ A1 Hsubdir). }
  { apply (adds_dirs_not_a_file _ _ _ _ A1 N2). }
  rewrite H2, Hsub. cbn [setup_subgenres].
  apply mkdir_exist_ok_ok in H2 as (A2 & _).
  pose proof (adds_dirs_trans _ _ _ _ _ A1 A2) as A12.
  apply IH.
  - apply (adds_dirs_is_directory _ _ _ _ A12 Htop).
  - apply (adds_dirs_is_directory _ _ _ _ A12 Hsubdir).
  - eapply List.Forall_impl; [|exact Hok].
    intros p. apply (adds_dirs_not_a_file _ _ _ _ A12).
Qed.

Lemma required_dirs_cover (p : Path) :
  In p (prefixes_from [] TOP_GENRES_PATH
        ++ prefixes_from [] SUB_GENRES_PATH ++ genre_dirs GENRES) ->
  In p required_dirs.
Proof.
  unfold required_dirs. rewrite !in_app_iff. cbn [prefixes_from In app].
  intros [[<-|[<-|[]]]|[[<-|[<-|[]]]|H]]; auto 10.
Qed.

Lemma setup_structure_adds (f f' : gmap Path Node) :
  setup_structure f = Ok f' ->
  adds_dirs required_dirs f f' /\ Forall (is_directory f') required_dirs.
Proof.
  unfold setup_structure, mkdir_parents_exist_ok.
  destruct (mkdir_from [] TOP_GENRES_PATH f) as [f1|e] eqn:H1; [|discriminate].
  destruct (mkdir_from [] SUB_GENRES_PATH f1) as [f2|e] eqn:H2; [|discriminate].
  intros H3.
  apply mkdir_from_ok in H1 as (A1 & D1), H2 as (A2 & D2).
  apply (setup_genres_ok _ SUB_GENRES_of_GENRES) in H3 as (A3 & D3).
  pose proof (adds_dirs_trans _ _ _ _ _ A2 A3) as A23.
  pose proof (adds_dirs_trans _ _ _ _ _ A1 A23) as A123.
  split.
  - eapply adds_dirs_incl; [|exact A123]. intros p. apply required_dirs_cover.
  - cbn [prefixes_from app] in D1, D2.
    apply Forall_cons in D1 as [Dd D1]. apply Forall_cons in D1 as [Dt _].
    apply Forall_cons in D2 as [_ D2]. apply Forall_cons in D2 as [Ds _].
    unfold required_dirs. cbn [app].
    constructor; [|constructor; [|constructor; [|exact D3]]].
    + apply (adds_dirs_is_directory _ _ _ _ A23 Dd).
    + apply (adds_dirs_is_directory _ _ _ _ A23 Dt).
    + apply (adds_dirs_is_directory _ _ _ _ A3 Ds).
Qed.

Lemma setup_structure_noop (f : gmap Path Node) :
  Forall (is_directory f) required_dirs -> setup_structure f = Ok f.
Proof.
  unfold required_dirs. cbn [app]. intros H.
  apply Forall_cons in H as [Dd H]. apply Forall_cons in H as [Dt H].
  apply Forall_cons in H as [Ds H].
  unfold setup_structure, mkdir_parents_exist_ok.
  rewrite !mkdir_from_noop by (by constructor; [|constructor]).
  by apply setup_genres_noop; [apply SUB_GENRES_of_GENRES|].
Qed.

(** X1: when [setup_structure] succeeds, "dataset", both roots and the two
    directories of every genre are directories; it changed nothing but
    missing paths among these, which it created as directories; and running
    it again changes nothing. *)
Theorem setup_structure_provides (f f' : gmap Path Node) :
  setup_structure f = Ok f' ->
  Forall (is_directory f') required_dirs /\
  adds_dirs required_dirs f f' /\
  setup_structure f' = Ok f'.
Proof.
  intros H. destruct (setup_structure_adds f f' H) as (A & D).
  split; [exact D|]. split; [exact A|]. by apply setup_structure_noop.
Qed.

(** X2: [setup_structure] succeeds exactly when no regular file sits at
    "dataset", at a root or at a genre directory. *)
Theorem setup_structure_succeeds_iff (f : gmap Path Node) :
  (exists f', setup_structure f = Ok f') <->
  Forall (not_a_file f) required_dirs.
Proof.
  split.
  - intros [f' H]. destruct (setup_structure_adds f f' H) as (A & D).
    eapply List.Forall_impl; [|exact D].
    intros p. by apply adds_dirs_not_a_file_inv with (places := required_dirs).
  - unfold required_dirs. cbn [app]. intros H.
    apply Forall_cons in H as [Nd H]. apply Forall_cons in H as [Nt H].
    apply Forall_cons in H as [Ns H].
    unfold setup_structure, mkdir_parents_exist_ok.
    destruct (mkdir_from_succeeds TOP_GENRES_PATH [] f) as [f1 H1];
      [by constructor; [|constructor]|].
    rewrite H1. apply mkdir_from_ok in H1 as (A1 & D1).
    destruct (mkdir_from_succeeds SUB_GENRES_PATH [] f1) as [f2 H2].
    { constructor; [|constructor; [|constructor]].
      - by apply (adds_dirs_not_a_file _ _ _ _ A1).
      - by apply (adds_dirs_not_a_file _ _ _ _ A1). }
    rewrite H2. apply mkdir_from_ok in H2 as (A2 & D2).
    cbn [prefixes_from app] in D1, D2.
    apply Forall_cons in D1 as [_ D1]. apply Forall_cons in D1 as [Dt _].
    apply Forall_cons in D2 as [_ D2]. apply Forall_cons in D2 as [Ds _].
    apply (setup_genres_succeeds _ SUB_GENRES_of_GENRES).
    + apply (adds_dirs_is_directory _ _ _ _ A2 Dt).
    + exact Ds.
    + eapply List.Forall_impl; [|exact H]. intros p Hp.
      apply (adds_dirs_not_a_file _ _ _ _ A2).
      by apply (adds_dirs_not_a_file _ _ _ _ A1).
Qed.





Lemma download_batch_ok env isalnum (genre_path : Path) (songs : list Song) :
  forall w w',
    download_batch env isalnum genre_path songs w = Ok w' ->
    w' = download_songs env isalnum genre_path songs w /\
    Forall (fun song =>
              stat_name_too_long (wav_file_path isalnum genre_path song)
              = false) songs.
Proof.
  induction songs as [|song rest IH]; intros w w' Hrun.
  - injection Hrun as <-. by split.
  - cbn [download_batch download_songs] in *.
    destruct (stat_name_too_long _) eqn:Hs; [discriminate|].
    apply IH in Hrun as [-> Hrest]. split; [done|]. by constructor.
Qed.


(** ** sanitize_filename, continued *)

(** X4: sanitizing twice is sanitizing once, and the base name of a song is
    the sanitized title, a hyphen, and the sanitized artist. *)
Theorem sanitize_filename_idempotent isalnum (s : pystr) (song : Song) :
  sanitize_filename isalnum (sanitize_filename isalnum s)
  = sanitize_filename isalnum s /\
  sanitized_name isalnum song
  = sanitize_filename isalnum (song_name song) ++ py "-"
    ++ sanitize_filename isalnum (artist_name song).
Proof.
  split.
  - rewrite !sanitize_filename_map, map_map. apply map_ext. intros c.
    destruct (allowed isalnum c) eqn:Hc; [by rewrite Hc|].
    unfold allowed. replace (char_in (N_of_ascii "_") (py " -_")) with true
      by reflexivity.
    by rewrite orb_true_r.
  - unfold sanitized_name. rewrite !sanitize_filename_app. f_equal.
    rewrite sanitize_filename_map. cbn [map py]. unfold allowed.
    replace (char_in (N_of_ascii "-") (py " -_")) with true by reflexivity.
    by rewrite orb_true_r.
Qed.

(** ** save_to_csv, continued *)

(** [save_to_csv] raises before it opens the file, and then changes
    nothing, exactly when a name of the path is too long, the path is a
    directory or its parent is not one; it raises while writing exactly when
    a field cannot be encoded, and then the file exists; otherwise it
    returns and the file exists. *)
Lemma save_to_csv_raises file_path genre song artist (w : World) :
  match save_to_csv file_path genre song artist w with
  | (Ok _, w') =>
      stat_name_too_long file_path = false /\
      writable file_path (fs w) = true /\
      call_encodable (genre, song, artist) /\
      path_exists file_path (fs w') = true
  | (Raise e, w') =>
      if stat_name_too_long file_path then
        w' = w /\ e = OSError_ENAMETOOLONG file_path
      else if writable file_path (fs w) then
        (exists field, e = UnicodeEncodeError field) /\
        ~ call_encodable (genre, song, artist) /\
        path_exists file_path (fs w') = true
      else
        w' = w /\
        match node_at file_path (fs w), node_at (parent file_path) (fs w) with
        | Some _, _ => e = IsADirectoryError file_path
        | None, Some _ => e = NotADirectoryError file_path
        | None, None => e = FileNotFoundError file_path
        end
  end.
Proof.
  pose proof (row_encodable genre song artist) as Henc.
  unfold save_to_csv, open_append, writable, is_dir.
  destruct (stat_name_too_long file_path); [done|].
  destruct (node_at file_path (fs w)) as [[|content]|] eqn:Hn.
  - done.
  - destruct (List.find _ _) as [field|]; cbn [fs set_fs].
    + split; [by exists field|]. split; [|apply path_exists_insert].
      intros He. by apply Henc in He.
    + split; [done|]. split; [done|].
      split; [by apply Henc|apply path_exists_insert].
  - destruct (node_at (parent file_path) (fs w)) as [[|content]|]; try done.
    destruct (List.find _ _) as [field|]; cbn [fs set_fs].
    + split; [by exists field|]. split; [|apply path_exists_insert].
      intros He. by apply Henc in He.
    + split; [done|]. split; [done|].
      split; [by apply Henc|apply path_exists_insert].
Qed.

(** ** get_songs_by_genre, continued *)

Lemma sleep_calls_app (l1 l2 : list Event) :
  sleep_calls (l1 ++ l2) = (sleep_calls l1 + sleep_calls l2)%nat.
Proof. unfold sleep_calls. by rewrite List.filter_app, length_app. Qed.

(** One attempt records its search, then at most one log line. *)
Lemma try_fetch_trace env genre offset results w r results' w' :
  try_fetch env genre offset results w = (r, results', w') ->
  exists resp tail,
    trace w'
    = trace w
      ++ EvSearch (py "genre:" ++ genre) (py "track") 50 offset resp :: tail /\
    (tail = [] \/ exists m, tail = [EvPrint m]).
Proof.
  unfold try_fetch.
  destruct (sp_search env w (py "genre:" ++ genre) (py "track") 50 offset)
    as [response|e].
  - destruct (response_items response) as [|t0 rest].
    + intros [= <- <- <-]. eexists _, _. cbn [trace print log].
      rewrite <- app_assoc. split; [reflexivity|]. right. eauto.
    + destruct (process_tracks genre (t0 :: rest) results _)
        as [[r1 results1] w2] eqn:Hp.
      apply (process_tracks_inv genre (fun _ _ => True)) in Hp as (Ht & _);
        [|done].
      destruct r1 as [[]|e]; intros [= <- <- <-]; eexists _, _.
      * cbn [trace print log]. rewrite Ht. cbn [trace log].
        rewrite <- app_assoc. split; [reflexivity|]. right. eauto.
      * rewrite Ht. cbn [trace log]. split; [reflexivity|]. by left.
  - intros [= <- <- <-]. eexists _, _. cbn [trace log].
    split; [reflexivity|]. by left.
Qed.

Lemma retry_loop_attempts env genre offset max_calls fuel :
  forall retries results w results' w',
    retry_loop env genre offset max_calls fuel retries results w
    = Some (results', w') ->
    exists events,
      trace w' = trace w ++ events /\
      Forall (same_page genre offset) events /\
      ((search_calls events = S (sleep_calls events) /\
        retries + Z.of_nat (search_calls events) <= max_calls)
       \/
       (search_calls events = sleep_calls events /\
        Z.of_nat (search_calls events) = Z.max 0 (max_calls - retries) /\
        last events = Some (EvPrint (MsgMaxRetries genre offset)))).
Proof.
  assert (Hexit : forall retries (results : list Song) (w : World)
                         (results' : list Song) (w' : World),
             max_calls <= retries ->
             Some (results, print (MsgMaxRetries genre offset) w)
             = Some (results', w') ->
             exists events,
               trace w' = trace w ++ events /\
               Forall (same_page genre offset) events /\
               ((search_calls events = S (sleep_calls events) /\
                 retries + Z.of_nat (search_calls events) <= max_calls)
                \/
                (search_calls events = sleep_calls events /\
                 Z.of_nat (search_calls events) = Z.max 0 (max_calls - retries) /\
                 last events = Some (EvPrint (MsgMaxRetries genre offset))))).
  { intros retries results w results' w' Hge [= <- <-].
    exists [EvPrint (MsgMaxRetries genre offset)]. split; [done|].
    split; [by repeat constructor|]. right. cbn. repeat split; lia. }
  induction fuel as [|fuel IH]; intros retries results w results' w';
    cbn [retry_loop]; destruct (retries <? max_calls) eqn:Hlt;
    try discriminate;
    try (apply Z.ltb_ge in Hlt; by apply Hexit).
  apply Z.ltb_lt in Hlt.
  destruct (try_fetch env genre offset results w) as [[r results1] w1] eqn:Hf.
  apply try_fetch_trace in Hf as (resp & tail & Ht & Htail).
  destruct r as [[]|e].
  - intros [= <- <-]. eexists. split; [exact Ht|].
    destruct Htail as [->|[m ->]].
    + split; [by repeat constructor|]. left. cbn. lia.
    + split; [by repeat constructor|]. left. cbn. lia.
  - intros Hrun. apply IH in Hrun as (events & Ht' & Hpage & Hcount).
    cbn [trace print log] in Ht'. rewrite Ht, <- !app_assoc in Ht'.
    exists ([EvSearch (py "genre:" ++ genre) (py "track") 50 offset resp]
            ++ tail
            ++ [EvPrint (MsgApiError (retries + 1) max_calls e); EvSleep 1]
            ++ events).
    split; [exact Ht'|].
    assert (Hpre : search_calls tail = 0%nat /\ sleep_calls tail = 0%nat /\
                   Forall (same_page genre offset) tail).
    { destruct Htail as [->|[m ->]]; by repeat constructor. }
    destruct Hpre as (Hs0 & Hl0 & Hp0). split.
    { cbn [app]. constructor; [done|]. apply Forall_app. split; [done|].
      constructor; [done|]. by constructor. }
    rewrite !search_calls_app, !sleep_calls_app, Hs0, Hl0.
    change (search_calls [EvSearch _ _ _ _ _]) with 1%nat.
    change (sleep_calls [EvSearch _ _ _ _ _]) with 0%nat.
    change (search_calls [EvPrint _; EvSleep _]) with 0%nat.
    change (sleep_calls [EvPrint _; EvSleep _]) with 1%nat.
    destruct Hcount as [(Hc & Hb)|(Hc & Hb & Hlast)].
    + left. lia.
    + right. split; [lia|]. split; [lia|].
      rewrite !last_app, Hlast. done.
Qed.

(** X5: whatever the catalog answers, a call either returns from an attempt,
    after at most [max_calls] searches and one sleep per failed one, or makes
    exactly [max(0, max_calls)] failed attempts and gives up; every search
    asks for the same page of the same genre with limit 50, and every sleep
    lasts one second. *)
Theorem get_songs_by_genre_attempts env genre offset max_calls w :
  exists results w' events,
    get_songs_by_genre env genre offset max_calls w = Some (results, w') /\
    trace w' = trace w ++ events /\
    Forall (same_page genre offset) events /\
    ((search_calls events = S (sleep_calls events) /\
      Z.of_nat (search_calls events) <= max_calls)
     \/
     (search_calls events = sleep_calls events /\
      Z.of_nat (search_calls events) = Z.max 0 max_calls /\
      last events = Some (EvPrint (MsgMaxRetries genre offset)))).
Proof.
  destruct (get_songs_by_genre_total env genre offset max_calls w)
    as [[results w'] Hrun].
  destruct (retry_loop_attempts _ _ _ _ _ _ _ _ _ _ Hrun)
    as (events & Ht & Hp & Hc).
  exists results, w', events. split; [exact Hrun|]. split; [exact Ht|].
  split; [exact Hp|]. rewrite Z.sub_0_r in Hc.
  destruct Hc as [(Hs & Hb)|(Hs & Hb & Hl)]; [left|right];
    repeat split; try done; lia.
Qed.

(** *** What the call leaves alone *)

Lemma save_to_csv_frame file_path genre song artist w r w' (q : Path) :
  save_to_csv file_path genre song artist w = (r, w') ->
  q <> file_path -> fs w' !! q = fs w !! q.
Proof.
  intros Hs Hq. destruct r as [[]|e].
  - apply save_to_csv_ok in Hs as (_ & _ & ->). by apply lookup_insert_ne.
  - apply save_to_csv_raise in Hs as (_ & [->|(_ & _ & ->)]); [done|].
    by apply lookup_insert_ne.
Qed.

Lemma process_tracks_frame genre (tracks : list Track) (q : Path) :
  q <> CSV_FILE ->
  forall results w r results' w',
    process_tracks genre tracks results w = (r, results', w') ->
    fs w' !! q = fs w !! q.
Proof.
  intros Hq.
  induction tracks as [|t rest IH]; intros results w r results' w' Hrun;
    cbn [process_tracks] in Hrun.
  - by injection Hrun as <- <- <-.
  - destruct (read_track t) as [[[artist song]|]|e].
    + destruct (save_to_csv CSV_FILE genre song artist w)
        as [[[]|e] w1] eqn:Hs.
      * rewrite (IH _ _ _ _ _ Hrun). by eapply save_to_csv_frame.
      * injection Hrun as <- <- <-. by eapply save_to_csv_frame.
    + by eapply IH.
    + by injection Hrun as <- <- <-.
Qed.

Lemma try_fetch_frame env genre offset results w r results' w' (q : Path) :
  q <> CSV_FILE ->
  try_fetch env genre offset results w = (r, results', w') ->
  fs w' !! q = fs w !! q.
Proof.
  intros Hq. unfold try_fetch.
  destruct (sp_search env w _ _ _ _) as [response|e].
  - destruct (response_items response) as [|t0 rest].
    + by intros [= <- <- <-].
    + destruct (process_tracks genre (t0 :: rest) results _)
        as [[r1 results1] w2] eqn:Hp.
      apply (process_tracks_frame genre _ q Hq) in Hp.
      by destruct r1 as [[]|e]; intros [= <- <- <-].
  - by intros [= <- <- <-].
Qed.

Lemma retry_loop_frame env genre offset max_calls (q : Path) fuel :
  q <> CSV_FILE ->
  forall retries results w results' w',
    retry_loop env genre offset max_calls fuel retries results w
    = Some (results', w') ->
    fs w' !! q = fs w !! q.
Proof.
  intros Hq.
  induction fuel as [|fuel IH]; intros retries results w results' w';
    cbn [retry_loop]; destruct (retries <? max_calls); try discriminate;
    try by intros [= <- <-].
  destruct (try_fetch env genre offset results w) as [[r results1] w1] eqn:Hf.
  apply (try_fetch_frame env genre offset results w r results1 w1 q Hq) in Hf.
  destruct r as [[]|e]; [by intros [= <- <-]|].
  intros Hrun. apply IH in Hrun. by rewrite Hrun.
Qed.

(** *** What the call writes *)

Lemma read_track_has_keys (t : Track) :
  has_keys t ->
  read_track t
  = Ok match entry_of t with
       | Some s => Some (artist_name s, song_name s)
       | None => None
       end.
Proof.
  intros (d & Hd & Hkeys). unfold read_track, entry_of. rewrite Hd.
  change (30 * 1000) with 30000.
  destruct (Z.ltb_spec d 30000) as [Hlt|Hge].
  - by rewrite (proj2 (Z.leb_gt 30000 d)).
  - rewrite (proj2 (Z.leb_le 30000 d)) by done.
    destruct (Hkeys Hge) as (a & others & artist & song & -> & Ha & ->).
    by rewrite Ha.
Qed.

Lemma read_track_lacks_key (t : Track) :
  lacks_key t -> exists e, read_track t = Raise e.
Proof.
  unfold read_track.
  intros [->|(d & -> & Hge & Hmiss)]; [eauto|].
  change (30 * 1000) with 30000.
  rewrite (proj2 (Z.ltb_ge d 30000)) by done.
  destruct Hmiss as [->|[->|(a & others & -> & [->| ->])]]; eauto.
  destruct (a_name a); eauto.
Qed.

Lemma read_track_entry (t : Track) artist song :
  read_track t = Ok (Some (artist, song)) ->
  entry_of t = Some {| artist_name := artist; song_name := song |}.
Proof.
  unfold read_track, entry_of.
  destruct (duration_ms t) as [d|]; [|discriminate].
  change (30 * 1000) with 30000.
  destruct (Z.ltb_spec d 30000) as [Hlt|Hge]; [discriminate|].
  rewrite (proj2 (Z.leb_le 30000 d)) by done.
  destruct (artists t) as [[|a others]|]; try discriminate.
  destruct (a_name a) as [an|]; [|discriminate].
  destruct (t_name t) as [tn|]; [|discriminate].
  by intros [= <- <-].
Qed.

Lemma entry_of_long_track (t : Track) (s : Song) :
  entry_of t = Some s <-> long_track t (artist_name s) (song_name s).
Proof.
  unfold entry_of, long_track. split.
  - destruct (duration_ms t) as [d|]; [|discriminate].
    destruct (Z.leb_spec 30000 d) as [Hge|Hlt]; [|discriminate].
    destruct (artists t) as [[|a others]|]; try discriminate.
    destruct (t_name t) as [tn|]; [|discriminate].
    destruct (a_name a) as [an|] eqn:Ha; [|discriminate].
    intros [= <-]. by exists d, a, others.
  - intros (d & a & others & -> & Hge & -> & -> & ->).
    rewrite (proj2 (Z.leb_le 30000 d)) by done. by destruct s.
Qed.

Lemma manifest_matches_start genre w0 : manifest_matches genre w0 [] w0.
Proof. split; [done|]. intros Hw. by rewrite app_nil_r. Qed.

Lemma manifest_matches_log genre w0 results w ev :
  manifest_matches genre w0 results w ->
  manifest_matches genre w0 results (log ev w).
Proof. done. Qed.

Lemma manifest_matches_save genre w0 results w artist song :
  call_encodable (genre, song, artist) ->
  manifest_matches genre w0 results w ->
  match save_to_csv CSV_FILE genre song artist w with
  | (Ok _, w1) =>
      manifest_matches genre w0
        (results ++ [{| artist_name := artist; song_name := song |}]) w1
  | (Raise _, w1) =>
      writable CSV_FILE (fs w0) = false /\
      manifest_matches genre w0
        (results ++ [{| artist_name := artist; song_name := song |}]) w1
  end.
Proof.
  intros Henc (Hframe & Hrows).
  destruct (save_to_csv CSV_FILE genre song artist w) as [[[]|e] w1] eqn:Hsave.
  - apply save_to_csv_ok in Hsave as (Hne & _ & Hfs). split.
    + intros q Hq. rewrite Hfs, lookup_insert_ne by done. by apply Hframe.
    + intros Hw. destruct (Hrows Hw) as (Hw1 & Hc & Hex).
      rewrite Hfs, file_content_insert, path_exists_insert by done.
      split; [by apply writable_insert_file|]. split.
      * rewrite Hc, Hex. destruct results as [|r rs].
        -- cbn. by rewrite app_nil_r.
        -- cbn [appended_rows app map]. rewrite map_app.
           cbn [app map song_row song_name artist_name].
           by rewrite <- !app_assoc.
      * by destruct results.
  - destruct (writable CSV_FILE (fs w0)) eqn:Hw.
    + destruct (Hrows eq_refl) as (Hw1 & _).
      destruct (save_to_csv_writable CSV_FILE genre song artist w
                  CSV_FILE_short Hw1 Henc) as [w2 Hok].
      congruence.
    + split; [done|]. split; [|intros Hw'; congruence].
      intros q Hq.
      rewrite (save_to_csv_frame _ _ _ _ _ _ _ q Hsave Hq). by apply Hframe.
Qed.

Lemma track_encodable_call genre (t : Track) artist song :
  utf8_encodable genre = true ->
  track_encodable t = true ->
  read_track t = Ok (Some (artist, song)) ->
  call_encodable (genre, song, artist).
Proof.
  intros Hg Ht Hread. apply read_track_entry in Hread.
  unfold track_encodable in Ht. rewrite Hread in Ht.
  apply andb_prop in Ht as [Hs Ha]. by repeat split.
Qed.

Lemma process_tracks_manifest genre w0 (tracks : list Track) :
  utf8_encodable genre = true ->
  Forall (fun t => track_encodable t = true) tracks ->
  forall results w r results' w',
    manifest_matches genre w0 results w ->
    process_tracks genre tracks results w = (r, results', w') ->
    manifest_matches genre w0 results' w'.
Proof.
  intros Hg Henc.
  induction Henc as [|t rest Ht _ IH]; intros results w r results' w' Hm Hrun;
    cbn [process_tracks] in Hrun.
  - by injection Hrun as <- <- <-.
  - destruct (read_track t) as [[[artist song]|]|e] eqn:Hread.
    + pose proof (manifest_matches_save genre w0 results w artist song
                    (track_encodable_call genre t artist song Hg Ht Hread) Hm)
        as Hs.
      destruct (save_to_csv CSV_FILE genre song artist w) as [[[]|e] w1].
      * by eapply IH.
      * injection Hrun as <- <- <-. by destruct Hs.
    + by eapply IH.
    + by injection Hrun as <- <- <-.
Qed.

Lemma try_fetch_manifest env genre w0 offset results w r results' w' :
  utf8_encodable genre = true ->
  serves_encodable env ->
  manifest_matches genre w0 results w ->
  try_fetch env genre offset results w = (r, results', w') ->
  manifest_matches genre w0 results' w'.
Proof.
  intros Hg Henv Hm. unfold try_fetch.
  destruct (sp_search env w _ _ _ _) as [response|e] eqn:Hsearch.
  - apply Henv in Hsearch.
    destruct (response_items response) as [|t0 rest].
    + by intros [= <- <- <-].
    + destruct (process_tracks genre (t0 :: rest) results _)
        as [[r1 results1] w2] eqn:Hp.
      apply (process_tracks_manifest genre w0) in Hp; [|done..].
      by destruct r1 as [[]|e]; intros [= <- <- <-].
  - by intros [= <- <- <-].
Qed.

Lemma retry_loop_manifest env genre w0 offset max_calls fuel :
  utf8_encodable genre = true ->
  serves_encodable env ->
  forall retries results w results' w',
    manifest_matches genre w0 results w ->
    retry_loop env genre offset max_calls fuel retries results w
    = Some (results', w') ->
    manifest_matches genre w0 results' w'.
Proof.
  intros Hg Henv.
  induction fuel as [|fuel IH]; intros retries results w results' w' Hm;
    cbn [retry_loop]; destruct (retries <? max_calls); try discriminate;
    try by intros [= <- <-].
  destruct (try_fetch env genre offset results w) as [[r results1] w1] eqn:Hf.
  apply (try_fetch_manifest env genre w0) in Hf; [|done..].
  destruct r as [[]|e]; [by intros [= <- <-]|].
  by apply IH.
Qed.

(** X6: a call changes no path but the manifest; and when the manifest can
    be opened for appending and the genre and the names the catalog serves
    can be encoded, the call appends exactly one record per entry of the
    list it returns, in the same order, under a header when the file is new,
    entries gathered by failed attempts included. *)
Theorem get_songs_by_genre_manifest env genre offset max_calls w :
  exists results w',
    get_songs_by_genre env genre offset max_calls w = Some (results, w') /\
    (forall q : Path, q <> CSV_FILE -> fs w' !! q = fs w !! q) /\
    (writable CSV_FILE (fs w) = true ->
     utf8_encodable genre = true ->
     serves_encodable env ->
     file_content CSV_FILE (fs w')
     = file_content CSV_FILE (fs w)
       ++ appended_rows genre (path_exists CSV_FILE (fs w)) results).
Proof.
  destruct (get_songs_by_genre_total env genre offset max_calls w)
    as [[results w'] Hrun].
  exists results, w'. split; [exact Hrun|]. split.
  - intros q Hq.
    exact (retry_loop_frame env genre offset max_calls q _ Hq _ _ _ _ _ Hrun).
  - intros Hw Hg Henv.
    destruct (retry_loop_manifest env genre w _ _ _ Hg Henv _ _ _ _ _
                (manifest_matches_start genre w) Hrun) as (_ & Hrows).
    by destruct (Hrows Hw) as (_ & Hc & _).
Qed.

Lemma process_tracks_app genre (l1 l2 : list Track) :
  forall results w,
    process_tracks genre (l1 ++ l2) results w
    = match process_tracks genre l1 results w with
      | (Ok _, results1, w1) => process_tracks genre l2 results1 w1
      | other => other
      end.
Proof.
  induction l1 as [|t l1 IH]; intros results w; [reflexivity|].
  cbn [app process_tracks].
  destruct (read_track t) as [[[artist song]|]|e]; [|apply IH|reflexivity].
  destruct (save_to_csv CSV_FILE genre song artist w) as [[[]|e] w1];
    [apply IH|reflexivity].
Qed.

(** Tracks with their keys and names that can be encoded, against a manifest
    that can be opened: the loop runs to its end and keeps the entries of
    the tracks, in order. *)
Lemma process_tracks_has_keys genre (tracks : list Track) :
  utf8_encodable genre = true ->
  Forall has_keys tracks ->
  Forall (fun t => track_encodable t = true) tracks ->
  forall results w,
    writable CSV_FILE (fs w) = true ->
    exists w',
      process_tracks genre tracks results w
      = (Ok tt, results ++ omap entry_of tracks, w') /\
      writable CSV_FILE (fs w') = true /\
      trace w' = trace w.
Proof.
  intros Hg Hkeys.
  induction Hkeys as [|t tracks Hk _ IH]; intros Henc results w Hw.
  - exists w. by rewrite app_nil_r.
  - apply Forall_cons in Henc as [Ht Henc].
    cbn [process_tracks omap list_omap].
    rewrite (read_track_has_keys t Hk).
    unfold track_encodable in Ht.
    destruct (entry_of t) as [[artist song]|]; [|by apply IH].
    cbn [artist_name song_name].
    apply andb_prop in Ht as [Hs Ha]. cbn [artist_name song_name] in Hs, Ha.
    destruct (save_to_csv_writable CSV_FILE genre song artist w
                CSV_FILE_short Hw) as [w1 Hs1]; [done|].
    rewrite Hs1. apply save_to_csv_ok in Hs1 as (Hne & Ht1 & Hfs).
    destruct (IH Henc
                (results ++ [{| artist_name := artist; song_name := song |}])
                w1) as (w' & Hrun & Hw' & Ht').
    { rewrite Hfs. by apply writable_insert_file. }
    exists w'. rewrite Hrun, <- app_assoc. split; [done|]. split; [done|].
    congruence.
Qed.

(** X7: when the first search succeeds with tracks that all carry their
    keys, the manifest can be opened and the genre and the names can be
    encoded, the call makes that one request and returns the entries of the
    tracks of at least 30000 ms, in the order of the response, as artist and
    title: an entry is returned exactly when a track of the response with
    these two names lasts at least 30000 ms; an empty page gives the empty
    list. *)
Theorem get_songs_by_genre_first_success env genre offset max_calls w response :
  0 < max_calls ->
  sp_search env w (py "genre:" ++ genre) (py "track") 50 offset = Ok response ->
  Forall has_keys (response_items response) ->
  Forall (fun t => track_encodable t = true) (response_items response) ->
  utf8_encodable genre = true ->
  writable CSV_FILE (fs w) = true ->
  exists w',
    get_songs_by_genre env genre offset max_calls w
    = Some (omap entry_of (response_items response), w') /\
    (forall s : Song,
        In s (omap entry_of (response_items response)) <->
        exists t, In t (response_items response) /\
                  long_track t (artist_name s) (song_name s)) /\
    trace w'
    = trace w
      ++ [ EvSearch (py "genre:" ++ genre) (py "track") 50 offset (Ok response);
           EvPrint
             match response_items response with
             | [] => MsgNoTracks genre offset
             | _ => MsgFetched (len (omap entry_of (response_items response)))
                      genre offset
             end ].
Proof.
  intros Hpos Hsearch Hkeys Henc Hg Hw.
  assert (Hin : forall s : Song,
             In s (omap entry_of (response_items response)) <->
             exists t, In t (response_items response) /\
                       long_track t (artist_name s) (song_name s)).
  { intros s. rewrite <- list_elem_of_In, list_elem_of_omap.
    split; intros (t & Ht & He); exists t.
    - by rewrite <- list_elem_of_In, <- entry_of_long_track.
    - by rewrite list_elem_of_In, entry_of_long_track. }
  unfold get_songs_by_genre.
  destruct (Z.to_nat max_calls) as [|fuel] eqn:Hfuel; [lia|].
  cbn [retry_loop]. replace (0 <? max_calls) with true by (symmetry; lia).
  unfold try_fetch. rewrite Hsearch.
  destruct (response_items response) as [|t0 rest] eqn:Hitems.
  - eexists. split; [reflexivity|]. split; [exact Hin|].
    cbn [trace print log]. by rewrite <- app_assoc.
  - destruct (process_tracks_has_keys genre (t0 :: rest) Hg Hkeys Henc []
                (log (EvSearch (py "genre:" ++ genre) (py "track") 50 offset
                        (Ok response)) w) Hw)
      as (w' & Hrun & _ & Ht).
    rewrite Hrun. cbn [app]. eexists. split; [reflexivity|].
    split; [exact Hin|].
    cbn [trace print log]. rewrite Ht. cbn [trace log].
    by rewrite <- app_assoc.
Qed.

Lemma try_fetch_nonempty env genre offset results w response :
  sp_search env w (py "genre:" ++ genre) (py "track") 50 offset = Ok response ->
  response_items response <> [] ->
  try_fetch env genre offset results w
  = match process_tracks genre (response_items response) results
            (log (EvSearch (py "genre:" ++ genre) (py "track") 50 offset
                    (Ok response)) w) with
    | (Raise e, results1, w2) => (Raise e, results1, w2)
    | (Ok _, results1, w2) =>
        (Ok tt, results1, print (MsgFetched (len results1) genre offset) w2)
    end.
Proof.
  intros Hs Hne. unfold try_fetch. rewrite Hs.
  by destruct (response_items response).
Qed.

Lemma retry_loop_duplicates env genre offset max_calls response good bad rest
    w0 :
  (forall w1, sp_search env w1 (py "genre:" ++ genre) (py "track") 50 offset
              = Ok response) ->
  response_items response = good ++ bad :: rest ->
  Forall has_keys good ->
  Forall (fun t => track_encodable t = true) good ->
  utf8_encodable genre = true ->
  lacks_key bad ->
  forall fuel retries results w,
    writable CSV_FILE (fs w) = true ->
    manifest_matches genre w0 results w ->
    fuel = Z.to_nat (max_calls - retries) ->
    exists w',
      retry_loop env genre offset max_calls fuel retries results w
      = Some (results ++ concat (replicate fuel (omap entry_of good)), w') /\
      manifest_matches genre w0
        (results ++ concat (replicate fuel (omap entry_of good))) w'.
Proof.
  intros Hconst Hitems Hgood Henc Hg Hbad.
  destruct (read_track_lacks_key bad Hbad) as [e He].
  induction fuel as [|fuel IH]; intros retries results w Hw Hm Hfuel.
  - rewrite retry_loop_exit by lia. eexists. rewrite app_nil_r.
    split; [reflexivity|done].
  - cbn [retry_loop]. replace (retries <? max_calls) with true
      by (symmetry; lia).
    rewrite (try_fetch_nonempty env genre offset results w response);
      [|apply Hconst|rewrite Hitems; by destruct good].
    rewrite Hitems, process_tracks_app.
    destruct (process_tracks_has_keys genre good Hg Hgood Henc results
                (log (EvSearch (py "genre:" ++ genre) (py "track") 50 offset
                        (Ok response)) w) Hw)
      as (w1 & Hrun & Hw1 & _).
    pose proof (process_tracks_manifest genre w0 good Hg Henc _ _ _ _ _
                  (manifest_matches_log genre w0 results w _ Hm) Hrun) as Hm1.
    rewrite Hrun. cbn [process_tracks]. rewrite He.
    destruct (IH (retries + 1) (results ++ omap entry_of good)
                (log (EvSleep 1)
                   (print (MsgApiError (retries + 1) max_calls e) w1)))
      as (w' & Hloop & Hm'); [done|done|lia|].
    exists w'. rewrite Hloop. cbn [replicate concat]. rewrite app_assoc.
    split; [reflexivity|]. by rewrite <- app_assoc in Hm' |- *.
Qed.

(** X8: retries do not start afresh.  When every request is answered by the
    same page and a track of the page lacks a key, each attempt appends the
    entries of the tracks that precede it and then fails; so when these
    tracks carry their keys, the genre and their names can be encoded and
    the manifest can be opened, the call returns their entries
    [max(0, max_calls)] times over, and the manifest gets a record for
    each. *)
Theorem get_songs_by_genre_retry_duplicates env genre offset max_calls w
    response good bad rest :
  (forall w0, sp_search env w0 (py "genre:" ++ genre) (py "track") 50 offset
              = Ok response) ->
  response_items response = good ++ bad :: rest ->
  Forall has_keys good ->
  Forall (fun t => track_encodable t = true) good ->
  utf8_encodable genre = true ->
  lacks_key bad ->
  writable CSV_FILE (fs w) = true ->
  exists w',
    get_songs_by_genre env genre offset max_calls w
    = Some (concat (replicate (Z.to_nat max_calls) (omap entry_of good)), w') /\
    file_content CSV_FILE (fs w')
    = file_content CSV_FILE (fs w)
      ++ appended_rows genre (path_exists CSV_FILE (fs w))
           (concat (replicate (Z.to_nat max_calls) (omap entry_of good))).
Proof.
  intros Hconst Hitems Hgood Henc Hg Hbad Hw.
  destruct (retry_loop_duplicates env genre offset max_calls response good bad
              rest w Hconst Hitems Hgood Henc Hg Hbad (Z.to_nat max_calls) 0 []
              w Hw (manifest_matches_start genre w))
    as (w' & Hrun & _ & Hrows); [f_equal; lia|].
  exists w'. split; [exact Hrun|].
  by destruct (Hrows Hw) as (_ & Hc & _).
Qed.

(** ** download_youtube_audio, continued *)

Lemma download_one_frame env isalnum genre_path song w (q : Path) :
  q <> wav_file_path isalnum genre_path song ->
  q <> temp_file_path isalnum genre_path song ->
  fs (download_one env isalnum genre_path song w) !! q = fs w !! q.
Proof.
  intros Hwav Hm4a. unfold download_one.
  fold (sanitized_name isalnum song).
  fold (wav_file_path isalnum genre_path song).
  set (wav := wav_file_path isalnum genre_path song) in *.
  destruct (path_exists wav (fs w)); [done|].
  unfold try_download. fold (temp_file_path isalnum genre_path song).
  set (m4a := temp_file_path isalnum genre_path song) in *.
  destruct (yt_search env _ _) as [[|yt others]|e]; [done| |done].
  destruct (get_audio_only yt) as [[stream|]|e]; [|done|done].
  destruct (download stream) as [data|e [data|]]; [| |done].
  - set (w6 := print (MsgConverting wav) _).
    destruct (convert_to_wav_effect env m4a wav w6) as [Hfs _].
    set (w7 := snd (convert_to_wav env m4a wav w6)) in *.
    assert (Hq : fs w7 !! q = fs w !! q).
    { rewrite Hfs by done. subst w6. cbn [fs print log set_fs].
      unfold write_blob. by rewrite lookup_insert_ne. }
    unfold unlink_missing_ok.
    destruct (node_at m4a (fs w7)) as [[|content]|]; cbn [fst snd fs print log set_fs];
      rewrite ?lookup_delete_ne by done; exact Hq.
  - cbn [fst snd fs print log set_fs]. unfold write_blob.
    by rewrite lookup_insert_ne.
Qed.

Lemma wav_not_temp isalnum genre_path (song song' : Song) :
  wav_file_path isalnum genre_path song' <> temp_file_path isalnum genre_path song.
Proof.
  unfold temp_file_path, wav_file_path, path_div. intros H.
  apply app_inv_head in H. injection H as H.
  apply app_inj_2 in H as [_ H]; [discriminate H|reflexivity].
Qed.




(** X10: when the [.wav] file of a song exists, no batch of downloads into
    that directory changes it, whatever the songs and the environment. *)
Theorem download_keeps_existing_wav env isalnum genre_path
    (songs : list Song) (song : Song) :
  forall w,
    path_exists (wav_file_path isalnum genre_path song) (fs w) = true ->
    fs (download_songs env isalnum genre_path songs w)
      !! wav_file_path isalnum genre_path song
    = fs w !! wav_file_path isalnum genre_path song.
Proof.
  induction songs as [|s songs IH]; intros w Hex; [done|].
  cbn [download_songs].
  assert (Hone : fs (download_one env isalnum genre_path s w)
                   !! wav_file_path isalnum genre_path song
                 = fs w !! wav_file_path isalnum genre_path song).
  { destruct (decide (wav_file_path isalnum genre_path song
                      = wav_file_path isalnum genre_path s)) as [Heq|Hne].
    - unfold download_one. fold (sanitized_name isalnum s).
      fold (wav_file_path isalnum genre_path s). by rewrite <- Heq, Hex.
    - apply download_one_frame; [done|apply wav_not_temp]. }
  rewrite IH; [exact Hone|].
  unfold wav_file_path in *. rewrite path_exists_div in *. by rewrite Hone.
Qed.

(** X11: when the download of a song completes, the iteration ends with the
    line "Successfully saved" and without the staged file, whatever the
    conversion did; the [.wav] file is there exactly when the process left
    its output, and then another pass over the song only reports that the
    file exists. *)
Theorem download_one_completed env isalnum genre_path song w data outcome :
  let wav := wav_file_path isalnum genre_path song in
  let m4a := temp_file_path isalnum genre_path song in
  let w' := download_one env isalnum genre_path song w in
  path_exists wav (fs w) = false ->
  download_completes env song w data ->
  (forall w0, subprocess_run env w0 (ffmpeg_args m4a wav) = outcome) ->
  fs w' !! m4a = None /\
  last (trace w') = Some (EvPrint (MsgSaved wav)) /\
  match outcome with
  | Exited _ (Some out) =>
      fs w' !! wav = Some (File [Blob out]) /\
      forall env2,
        download_one env2 isalnum genre_path song w' = print (MsgExists wav) w'
  | _ => fs w' !! wav = None
  end.
Proof.
  intros wav m4a w' Hwav (yt & others & stream & Hsearch & Hstream & Hdl) Hproc.
  assert (Hne : m4a <> wav) by apply temp_wav_distinct.
  assert (Hnone : fs w !! wav = None).
  { unfold wav, wav_file_path in *. rewrite path_exists_div in Hwav.
    by destruct (fs w !! _). }
  assert (Hw' : exists f tr,
             w' = {| fs := f; trace := tr ++ [EvPrint (MsgSaved wav)] |} /\
             f !! m4a = None /\
             f !! wav = match outcome with
                        | Exited _ (Some out) => Some (File [Blob out])
                        | _ => None
                        end).
  { subst w'. unfold download_one. fold (sanitized_name isalnum song).
    fold (wav_file_path isalnum genre_path song). fold wav. rewrite Hwav.
    unfold try_download. fold (temp_file_path isalnum genre_path song).
    fold m4a. rewrite Hsearch, Hstream, Hdl.
    unfold convert_to_wav. rewrite Hproc. unfold unlink_missing_ok.
    unfold m4a at 1 2 3, temp_file_path. rewrite !node_at_div.
    fold (temp_file_path isalnum genre_path song). fold m4a.
    assert (Hne' : wav <> m4a) by (intros H; by apply Hne).
    destruct outcome as [code [out|]|]; [destruct (code =? 0)..|];
      cbn [fst snd fs trace print log set_fs]; unfold write_blob;
      rewrite ?(lookup_insert_ne _ wav m4a) by done;
      rewrite lookup_insert_eq;
      cbn [fst snd fs trace print log set_fs];
      eexists _, _; (split; [reflexivity|]);
      cbn [fst snd fs trace print log set_fs];
      rewrite lookup_delete_eq, lookup_delete_ne by done;
      rewrite ?lookup_insert_eq, ?(lookup_insert_ne _ m4a wav) by done;
      done. }
  destruct Hw' as (f & tr & -> & Hm & Hwv). cbn [fs trace].
  split; [exact Hm|]. split; [apply last_snoc|].
  destruct outcome as [code [out|]|]; try exact Hwv.
  split; [exact Hwv|]. intros env2.
  unfold download_one. fold (sanitized_name isalnum song).
  fold (wav_file_path isalnum genre_path song). fold wav. cbn [fs].
  unfold wav at 1, wav_file_path. rewrite path_exists_div.
  fold (wav_file_path isalnum genre_path song). fold wav. by rewrite Hwv.
Qed.

(** ** build, continued *)

Lemma search_calls_snoc (l : list Event) (ev : Event) :
  is_search ev = false -> search_calls (l ++ [ev]) = search_calls l.
Proof.
  intros H. rewrite search_calls_app. unfold search_calls at 2.
  cbn. rewrite H. cbn. lia.
Qed.

Lemma convert_to_wav_no_search env input_path output_path w :
  search_calls (trace (snd (convert_to_wav env input_path output_path w)))
  = search_calls (trace w).
Proof.
  unfold convert_to_wav.
  destruct (subprocess_run env w _) as [code [out|]|];
    [destruct (code =? 0)..|];
    cbn [snd trace print log set_fs]; by rewrite !search_calls_snoc.
Qed.

Lemma download_one_no_search env isalnum genre_path song w :
  search_calls (trace (download_one env isalnum genre_path song w))
  = search_calls (trace w).
Proof.
  unfold download_one.
  destruct (path_exists _ (fs w));
    [cbn [trace print log]; by rewrite search_calls_snoc|].
  unfold try_download.
  destruct (yt_search env _ _) as [[|yt others]|e];
    [cbn [trace print log]; by rewrite !search_calls_snoc|
    |cbn [trace print log]; by rewrite !search_calls_snoc].
  destruct (get_audio_only yt) as [[stream|]|e];
    [|cbn [trace print log]; by rewrite !search_calls_snoc..].
  destruct (download stream) as [data|e [data|]];
    [|cbn [trace print log set_fs]; by rewrite !search_calls_snoc..].
  set (w6 := print _ (set_fs _ _)).
  pose proof (convert_to_wav_no_search env
                (path_div genre_path
                   (sanitize_filename isalnum
                      (song_name song ++ py "-" ++ artist_name song)
                    ++ py ".m4a"))
                (path_div genre_path
                   (sanitize_filename isalnum
                      (song_name song ++ py "-" ++ artist_name song)
                    ++ py ".wav")) w6) as Hc.
  destruct (unlink_missing_ok _ _) as [f|e];
    cbn [trace print log set_fs]; rewrite ?search_calls_snoc by done;
    rewrite Hc; subst w6; cbn [trace print log set_fs];
    by rewrite !search_calls_snoc.
Qed.

Lemma download_youtube_audio_no_search env isalnum songs genre output_path w w' :
  download_youtube_audio env isalnum songs genre output_path w = Ok w' ->
  search_calls (trace w') = search_calls (trace w).
Proof.
  unfold download_youtube_audio.
  destruct (stat_name_too_long _); [discriminate|].
  destruct (mkdir_parents_exist_ok _ (fs w)) as [f|e]; [|discriminate].
  intros Hbatch. apply download_batch_ok in Hbatch as [-> _].
  assert (H : forall l w2,
             search_calls (trace (download_songs env isalnum
                                    (path_div output_path genre) l w2))
             = search_calls (trace w2)).
  { induction l as [|s l IH]; intros w2; [done|].
    cbn [download_songs]. by rewrite IH, download_one_no_search. }
  by rewrite H.
Qed.

Lemma get_songs_by_genre_searches env genre offset max_calls w results w' :
  get_songs_by_genre env genre offset max_calls w = Some (results, w') ->
  (search_calls (trace w') <= search_calls (trace w) + Z.to_nat max_calls)%nat.
Proof.
  intros Hrun. apply retry_loop_attempts in Hrun as (events & -> & _ & Hc).
  rewrite search_calls_app. lia.
Qed.

Lemma fetch_loop_total env isalnum genre target max_calls fuel :
  forall offset count w,
    (Z.to_nat (target - count) <= fuel)%nat ->
    exists r,
      fetch_loop env isalnum genre target max_calls fuel offset count w
      = Some r.
Proof.
  induction fuel as [|fuel IH]; intros offset count w Hfuel;
    cbn [fetch_loop]; destruct (count <? target) eqn:Hlt; eauto;
    apply Z.ltb_lt in Hlt; [lia|].
  destruct (get_songs_by_genre_total env genre offset max_calls w)
    as [[songs w1] ->].
  destruct songs as [|song songs]; [eauto|].
  destruct (download_youtube_audio _ _ _ _ _ _) as [w2|e]; [|eauto].
  apply IH. pose proof (len_cons_pos song songs). lia.
Qed.

Lemma fetch_loop_bounds env isalnum genre target max_calls fuel :
  forall offset count w offset' count' w',
    fetch_loop env isalnum genre target max_calls fuel offset count w
    = Some (Ok (offset', count', w')) ->
    (exists k : Z,
        0 <= k <= Z.max 0 (target - count) /\
        offset' = offset + 50 * k /\ count + k <= count') /\
    (search_calls (trace w')
     <= search_calls (trace w)
        + Z.to_nat (target - count) * Z.to_nat max_calls)%nat.
Proof.
  induction fuel as [|fuel IH]; intros offset count w offset' count' w';
    cbn [fetch_loop]; destruct (count <? target) eqn:Hlt; try discriminate;
    try (apply Z.ltb_ge in Hlt; intros [= <- <- <-];
         split; [exists 0|]; lia).
  apply Z.ltb_lt in Hlt.
  destruct (get_songs_by_genre env genre offset max_calls w)
    as [[songs w1]|] eqn:Hget; [|discriminate].
  apply get_songs_by_genre_searches in Hget.
  destruct songs as [|song songs].
  - intros [= <- <- <-]. split; [exists 0; lia|].
    cbn [trace print log]. rewrite search_calls_snoc by done. nia.
  - destruct (download_youtube_audio _ _ _ _ _ _) as [w2|e] eqn:Hdl;
      [|discriminate].
    apply download_youtube_audio_no_search in Hdl.
    pose proof (len_cons_pos song songs) as Hpos.
    intros Hrun. apply IH in Hrun as ((k & Hk & -> & Hc) & Hs).
    cbn [trace print log] in Hs. rewrite search_calls_snoc in Hs by done.
    split; [exists (k + 1); lia|]. nia.
Qed.

(** X12: the loop of [build] for one genre makes at most
    [max(0, target - count)] passes: the final offset is the initial one
    plus 50 for each pass that brought a batch, and each of these passes
    adds at least one to the count. *)
Theorem fetch_loop_passes env isalnum genre target max_calls fuel
    offset count w offset' count' w' :
  fetch_loop env isalnum genre target max_calls fuel offset count w
  = Some (Ok (offset', count', w')) ->
  exists k : Z,
    0 <= k <= Z.max 0 (target - count) /\
    offset' = offset + 50 * k /\
    count + k <= count'.
Proof. intros H. by destruct (fetch_loop_bounds _ _ _ _ _ _ _ _ _ _ _ _ H). Qed.

Lemma build_genre_total env isalnum genre target max_calls w :
  exists r, build_genre env isalnum genre target max_calls w = Some r.
Proof.
  unfold build_genre.
  destruct (fetch_loop_total env isalnum genre target max_calls
              (Z.to_nat target) 0 0 (print (MsgFetching genre) w))
    as [[[[o c] w1]|e] ->]; [f_equal; lia|eauto..].
Qed.

Lemma build_genre_searches env isalnum genre target max_calls w o c w' :
  build_genre env isalnum genre target max_calls w = Some (Ok (o, c, w')) ->
  (search_calls (trace w')
   <= search_calls (trace w) + Z.to_nat target * Z.to_nat max_calls)%nat.
Proof.
  unfold build_genre.
  destruct (fetch_loop _ _ _ _ _ _ _ _ _) as [[[[o1 c1] w1]|e]|] eqn:Hloop;
    try discriminate.
  intros [= <- <- <-]. apply fetch_loop_bounds in Hloop as (_ & Hs).
  cbn [trace print log] in *. rewrite search_calls_snoc in * by done.
  rewrite Z.sub_0_r in Hs. lia.
Qed.

(** X13: [build] returns, for every list of genres, target and retry bound
    and whatever the environment does; and when no exception ends it, it
    has issued at most [max(0, songs_per_genre) * max(0, max_api_calls)]
    catalog requests per genre. *)
Theorem build_search_budget env isalnum (genres : list pystr)
    songs_per_genre max_api_calls :
  forall w,
    exists r,
      build env isalnum genres songs_per_genre max_api_calls w = Some r /\
      forall w',
        r = Ok w' ->
        (search_calls (trace w')
         <= search_calls (trace w)
            + length genres
              * (Z.to_nat songs_per_genre * Z.to_nat max_api_calls))%nat.
Proof.
  induction genres as [|genre genres IH]; intros w; cbn [build].
  - eexists. split; [reflexivity|]. intros w' [= <-]. lia.
  - destruct (build_genre_total env isalnum genre songs_per_genre
                max_api_calls w) as [[[[o c] w1]|e] Hg]; rewrite Hg.
    + apply build_genre_searches in Hg.
      destruct (IH w1) as (r & Hr & Hb). exists r. split; [exact Hr|].
      intros w' Hw'. specialize (Hb w' Hw'). cbn [length]. lia.
    + eexists. split; [reflexivity|]. discriminate.
Qed.

(** X14: with a target of zero or less, [build] makes no request and touches
    no file: for each genre, in order, it only prints the opening line and
    the closing line with a count of 0. *)
Theorem build_nothing_to_fetch env isalnum (genres : list pystr)
    songs_per_genre max_api_calls :
  songs_per_genre <= 0 ->
  forall w,
    exists w',
      build env isalnum genres songs_per_genre max_api_calls w = Some (Ok w') /\
      fs w' = fs w /\
      trace w'
      = trace w
        ++ flat_map (fun genre => [EvPrint (MsgFetching genre);
                                   EvPrint (MsgFinished genre 0)]) genres.
Proof.
  intros Hle. induction genres as [|genre genres IH]; intros w; cbn [build].
  - exists w. by rewrite app_nil_r.
  - unfold build_genre. replace (Z.to_nat songs_per_genre) with 0%nat by lia.
    cbn [fetch_loop].
    replace (0 <? songs_per_genre) with false by (symmetry; lia).
    destruct (IH (print (MsgFinished genre 0) (print (MsgFetching genre) w)))
      as (w' & Hrun & Hfs & Htr).
    exists w'. split; [exact Hrun|]. split; [by rewrite Hfs|].
    rewrite Htr. cbn [trace print log flat_map]. by rewrite <- !app_assoc.
Qed.

(** X15: when every catalog search raises and the target is positive,
    [build] still ends normally: for each genre it makes
    [max(0, max_api_calls)] requests and stops; no file is touched. *)
Theorem build_catalog_down env isalnum (genres : list pystr)
    songs_per_genre max_api_calls :
  always_raises env ->
  0 < songs_per_genre ->
  forall w,
    exists w',
      build env isalnum genres songs_per_genre max_api_calls w = Some (Ok w') /\
      fs w' = fs w /\
      search_calls (trace w')
      = (search_calls (trace w) + length genres * Z.to_nat max_api_calls)%nat.
Proof.
  intros Hdown Hpos.
  induction genres as [|genre genres IH]; intros w; cbn [build].
  - exists w. repeat split. cbn. lia.
  - unfold build_genre.
    destruct (Z.to_nat songs_per_genre) as [|fuel] eqn:Hfuel; [lia|].
    cbn [fetch_loop].
    replace (0 <? songs_per_genre) with true by (symmetry; lia).
    destruct (retry_loop_always_raises env genre 0 max_api_calls Hdown
                (Z.to_nat max_api_calls) 0 [] (print (MsgFetching genre) w))
      as (es & w1 & Hrun & Hlen & Hfs & Htr); [f_equal; lia|].
    unfold get_songs_by_genre. rewrite Hrun.
    destruct (IH (print (MsgFinished genre 0) (print (MsgNoMore genre) w1)))
      as (w' & Hbuild & Hfs' & Hs').
    exists w'. split; [exact Hbuild|]. split.
    + rewrite Hfs'. cbn [fs print log]. by rewrite Hfs.
    + rewrite Hs'. cbn [trace print log]. rewrite !search_calls_snoc by done.
      rewrite Htr. cbn [trace print log].
      rewrite !search_calls_app, search_calls_failed_attempts, Hlen.
      change (search_calls [EvPrint (MsgFetching genre)]) with 0%nat.
      change (search_calls [EvPrint (MsgMaxRetries genre 0)]) with 0%nat.
      cbn [length]. lia.
Qed.

(** * The further properties at concrete inputs *)

(** X1 in a fresh working directory. *)
Lemma setup_structure_provides_witness :
  exists f',
    setup_structure ∅ = Ok f' /\
    Forall (is_directory f') required_dirs /\
    setup_structure f' = Ok f'.
Proof.
  assert (H1 : match setup_structure ∅ with Ok _ => true | Raise _ => false end
               = true) by (vm_compute; reflexivity).
  destruct (setup_structure ∅) as [f'|e] eqn:H; [|discriminate H1].
  exists f'. split; [reflexivity|].
  destruct (setup_structure_provides ∅ f' H) as (Hd & _ & Hi).
  split; [exact Hd|exact Hi].
Defined.


Lemma env_one_page_serves_encodable : serves_encodable env_one_page.
Proof.
  intros w q type_ limit offset response. cbn [sp_search env_one_page].
  destruct (offset =? 0); intros [= <-].
  - repeat (constructor; [vm_compute; reflexivity|]). constructor.
  - constructor.
Qed.

(** X6 on the one-page catalog with the output directory in place. *)
Lemma get_songs_by_genre_manifest_witness :
  writable CSV_FILE (fs w_ready) = true /\
  utf8_encodable (py "jazz") = true /\
  serves_encodable env_one_page /\
  exists results w',
    get_songs_by_genre env_one_page (py "jazz") 0 5 w_ready
    = Some (results, w') /\
    file_content CSV_FILE (fs w')
    = file_content CSV_FILE (fs w_ready)
      ++ appended_rows (py "jazz") (path_exists CSV_FILE (fs w_ready)) results.
Proof.
  assert (Hw : writable CSV_FILE (fs w_ready) = true)
    by (vm_compute; reflexivity).
  assert (Hg : utf8_encodable (py "jazz") = true) by (vm_compute; reflexivity).
  split; [exact Hw|]. split; [exact Hg|].
  split; [exact env_one_page_serves_encodable|].
  destruct (get_songs_by_genre_manifest env_one_page (py "jazz") 0 5 w_ready)
    as (results & w' & Hrun & _ & Hrows).
  exists results, w'. split; [exact Hrun|].
  exact (Hrows Hw Hg env_one_page_serves_encodable).
Defined.

Lemma track_has_keys (d : Z) (artist song : string) :
  has_keys (track d artist song).
Proof.
  exists d. split; [reflexivity|]. intros _.
  by eexists _, _, _, _.
Qed.

(** X7 on the one-page catalog: the track of 12 seconds is left out. *)
Lemma get_songs_by_genre_first_success_witness :
  0 < 5 /\
  sp_search env_one_page w_ready (py "genre:" ++ py "jazz") (py "track") 50 0
  = Ok one_page /\
  Forall has_keys (response_items one_page) /\
  Forall (fun t => track_encodable t = true) (response_items one_page) /\
  utf8_encodable (py "jazz") = true /\
  writable CSV_FILE (fs w_ready) = true /\
  exists w',
    get_songs_by_genre env_one_page (py "jazz") 0 5 w_ready
    = Some ([ so_what;
              {| artist_name := py "Miles Davis";
                 song_name := py "Freddie Freeloader" |} ], w').
Proof.
  assert (Hkeys : Forall has_keys (response_items one_page))
    by (repeat (constructor; [apply track_has_keys|]); constructor).
  assert (Henc : Forall (fun t => track_encodable t = true)
                   (response_items one_page))
    by (repeat (constructor; [vm_compute; reflexivity|]); constructor).
  assert (Hg : utf8_encodable (py "jazz") = true) by (vm_compute; reflexivity).
  assert (Hw : writable CSV_FILE (fs w_ready) = true)
    by (vm_compute; reflexivity).
  split; [lia|]. split; [reflexivity|]. split; [exact Hkeys|].
  split; [exact Henc|]. split; [exact Hg|]. split; [exact Hw|].
  destruct (get_songs_by_genre_first_success env_one_page (py "jazz") 0 5
              w_ready one_page) as (w' & Hrun & _);
    [lia|reflexivity|exact Hkeys|exact Henc|exact Hg|exact Hw|].
  exists w'. exact Hrun.
Defined.

(** X8 on a page whose second track lacks its name, with two attempts. *)
Lemma get_songs_by_genre_retry_duplicates_witness :
  response_items bad_page
  = [track 545000 "Miles Davis" "So What"]
    ++ {| duration_ms := Some 200000;
          artists := Some [ {| a_name := Some (py "Anonymous") |} ];
          t_name := None |}
       :: [track 589000 "Miles Davis" "Freddie Freeloader"] /\
  lacks_key {| duration_ms := Some 200000;
               artists := Some [ {| a_name := Some (py "Anonymous") |} ];
               t_name := None |} /\
  writable CSV_FILE (fs w_ready) = true /\
  exists w',
    get_songs_by_genre env_bad_page (py "jazz") 0 2 w_ready
    = Some ([so_what; so_what], w') /\
    file_content CSV_FILE (fs w')
    = [ Rec header;
        Rec [py "jazz"; py "So What"; py "Miles Davis"];
        Rec [py "jazz"; py "So What"; py "Miles Davis"] ].
Proof.
  assert (Hbad : lacks_key
                   {| duration_ms := Some 200000;
                      artists := Some [ {| a_name := Some (py "Anonymous") |} ];
                      t_name := None |}).
  { right. exists 200000. split; [reflexivity|]. split; [lia|].
    right. right. eexists _, _. split; [reflexivity|]. by right. }
  assert (Hw : writable CSV_FILE (fs w_ready) = true)
    by (vm_compute; reflexivity).
  split; [reflexivity|]. split; [exact Hbad|]. split; [exact Hw|].
  destruct (get_songs_by_genre_retry_duplicates env_bad_page (py "jazz") 0 2
              w_ready bad_page [track 545000 "Miles Davis" "So What"]
              {| duration_ms := Some 200000;
                 artists := Some [ {| a_name := Some (py "Anonymous") |} ];
                 t_name := None |}
              [track 589000 "Miles Davis" "Freddie Freeloader"])
    as (w' & Hrun & Hrows).
  - intros w0. reflexivity.
  - reflexivity.
  - constructor; [apply track_has_keys|constructor].
  - constructor; [vm_compute; reflexivity|constructor].
  - vm_compute; reflexivity.
  - exact Hbad.
  - exact Hw.
  - exists w'. split; [exact Hrun|]. rewrite Hrows. vm_compute. reflexivity.
Defined.


(** X10 on a directory that already holds the [.wav] of the song. *)
Lemma download_keeps_existing_wav_witness :
  path_exists (wav_file_path ascii_isalnum jazz_path so_what)
    (fs w_have_so_what) = true /\
  fs (download_songs env_one_page ascii_isalnum jazz_path [so_what; so_what]
        w_have_so_what) !! wav_file_path ascii_isalnum jazz_path so_what
  = fs w_have_so_what !! wav_file_path ascii_isalnum jazz_path so_what.
Proof.
  split; [vm_compute; reflexivity|].
  apply (download_keeps_existing_wav env_one_page ascii_isalnum jazz_path
           [so_what; so_what] so_what w_have_so_what).
  vm_compute; reflexivity.
Defined.

(** X11 on a download that completes and a conversion that succeeds. *)
Lemma download_one_completed_witness :
  path_exists (wav_file_path ascii_isalnum jazz_path so_what) (fs w_ready)
  = false /\
  download_completes env_ffmpeg_ok so_what w_ready (py "m4a data") /\
  fs (download_one env_ffmpeg_ok ascii_isalnum jazz_path so_what w_ready)
    !! wav_file_path ascii_isalnum jazz_path so_what
  = Some (File [Blob (py "wav data")]) /\
  fs (download_one env_ffmpeg_ok ascii_isalnum jazz_path so_what w_ready)
    !! temp_file_path ascii_isalnum jazz_path so_what
  = None.
Proof.
  assert (Hwav : path_exists (wav_file_path ascii_isalnum jazz_path so_what)
                   (fs w_ready) = false) by (vm_compute; reflexivity).
  assert (Hdl : download_completes env_ffmpeg_ok so_what w_ready
                  (py "m4a data")).
  { eexists _, _, _. repeat split; reflexivity. }
  split; [exact Hwav|]. split; [exact Hdl|].
  destruct (download_one_completed env_ffmpeg_ok ascii_isalnum jazz_path
              so_what w_ready (py "m4a data")
              (Exited 0 (Some (py "wav data"))) Hwav Hdl)
    as (Hm & _ & Hw & _); [intros w0; reflexivity|].
  split; [exact Hw|exact Hm].
Defined.

(** X12 on the one-page catalog with a target of 2. *)
Lemma fetch_loop_passes_witness :
  exists w',
    fetch_loop env_one_page ascii_isalnum (py "jazz") 2 5 2 0 0 w_ready
    = Some (Ok (50, 2, w')) /\
    exists k : Z,
      0 <= k <= Z.max 0 (2 - 0) /\ 50 = 0 + 50 * k /\ 0 + k <= 2.
Proof.
  assert (H1 : match fetch_loop env_one_page ascii_isalnum (py "jazz") 2 5 2
                       0 0 w_ready with
               | Some (Ok (o, c, _)) => Some (o, c)
               | _ => None
               end = Some (50, 2)) by (vm_compute; reflexivity).
  destruct (fetch_loop env_one_page ascii_isalnum (py "jazz") 2 5 2 0 0
              w_ready) as [[[[o c] w']|e]|] eqn:H; [|discriminate H1..].
  injection H1 as -> ->.
  exists w'. split; [reflexivity|].
  exact (fetch_loop_passes env_one_page ascii_isalnum (py "jazz") 2 5 2 0 0
           w_ready 50 2 w' H).
Defined.

(** X13 on a catalog that is down, one genre. *)
Lemma build_search_budget_witness :
  exists w',
    build env_catalog_down ascii_isalnum [py "jazz"] 1 2 w_empty = Some (Ok w') /\
    (search_calls (trace w')
     <= search_calls (trace w_empty)
        + length [py "jazz"] * (Z.to_nat 1 * Z.to_nat 2))%nat.
Proof.
  destruct (build_search_budget env_catalog_down ascii_isalnum [py "jazz"] 1 2
              w_empty) as (r & Hr & Hb).
  assert (H1 : match build env_catalog_down ascii_isalnum [py "jazz"] 1 2
                       w_empty with
               | Some (Ok _) => true
               | _ => false
               end = true) by (vm_compute; reflexivity).
  rewrite Hr in H1. destruct r as [w'|e]; [|discriminate H1].
  exists w'. split; [exact Hr|]. apply Hb. reflexivity.
Defined.

(** X14 with a target of 0 on the genres of [const.py]. *)
Lemma build_nothing_to_fetch_witness :
  0 <= 0 /\
  exists w',
    build env_one_page ascii_isalnum GENRES 0 5 w_empty = Some (Ok w') /\
    fs w' = fs w_empty.
Proof.
  split; [lia|].
  destruct (build_nothing_to_fetch env_one_page ascii_isalnum GENRES 0 5
              ltac:(lia) w_empty) as (w' & Hrun & Hfs & _).
  exists w'. split; [exact Hrun|exact Hfs].
Defined.

(** X15 on a catalog that is down, all genres, target 10, five retries. *)
Lemma build_catalog_down_witness :
  always_raises env_catalog_down /\
  0 < 10 /\
  exists w',
    build env_catalog_down ascii_isalnum GENRES 10 5 w_empty = Some (Ok w') /\
    fs w' = fs w_empty /\
    search_calls (trace w')
    = (search_calls (trace w_empty) + length GENRES * Z.to_nat 5)%nat.
Proof.
  split; [exact env_catalog_down_always_raises|]. split; [lia|].
  apply (build_catalog_down env_catalog_down ascii_isalnum GENRES 10 5
           env_catalog_down_always_raises ltac:(lia) w_empty).
Defined.
